(** * The [init] subcommand of the golang/v3 plugin

    A shallow embedding of [pkg/plugins/golang/v3/init.go]: the directory
    precondition [checkDir], the metadata resolution of [Validate] and the
    command sequence of [PostScaffold], with the properties the project
    specification states about them.

    Go values are modelled as follows.  A Go [string] is a [string] of
    bytes.  A value of the interface type [error] is an [option error]
    ([None] is [nil]).  The receiver [p *initSubcommand], together with the
    [*config.Config] it points to, is threaded through a small state monad
    that also keeps the log of the calls made to the collaborators the file
    imports ([util], [validation], [os], [filepath], [fmt]). *)

From Stdlib Require Import String Ascii List Bool Arith Lia Sorted.
Import ListNotations.
Open Scope string_scope.

(** ** Strings *)

(** The double quote and the line feed, which a literal cannot hold. *)
Definition dquote : string := String (ascii_of_nat 34) "".
Definition newline : string := String (ascii_of_nat 10) "".

(** [includes sub s]: [sub] occurs in [s] as a contiguous run of bytes. *)
Definition includes (sub s : string) : Prop :=
  exists pre post, s = pre ++ sub ++ post.

Fixpoint forall_bytes (f : ascii -> bool) (s : string) : bool :=
  match s with
  | EmptyString => true
  | String c s' => f c && forall_bytes f s'
  end.

Fixpoint map_bytes (f : ascii -> ascii) (s : string) : string :=
  match s with
  | EmptyString => EmptyString
  | String c s' => String (f c) (map_bytes f s')
  end.

(** ** Errors *)

(** [*os.PathError]: the error value of a failed file-system call. *)
Record PathError := mkPathError { Op : string; Path : string; Err : string }.

(** The dynamic values an [error] takes in this file. *)
Inductive error : Type :=
| SkipDir                       (* the sentinel filepath.SkipDir *)
| errorString (s : string)      (* errors.New(s) and fmt.Errorf without %w *)
| pathError (e : PathError)     (* *os.PathError *)
| nilDereference.               (* the run-time panic of a method call on nil *)

(** The method [Error() string], which [%v] prints. *)
Definition Error (e : error) : string :=
  match e with
  | SkipDir => "skip this directory"
  | errorString s => s
  | pathError e => Op e ++ " " ++ Path e ++ ": " ++ Err e
  | nilDereference => "runtime error: invalid memory address or nil pointer dereference"
  end.

Definition isSkipDir (e : error) : bool :=
  match e with SkipDir => true | _ => false end.

Module errors.
Definition New (text : string) : error := errorString text.
End errors.

Module strings.

(** [strings.HasPrefix(s, prefix)]. *)
Definition HasPrefix (s prefix : string) : bool := String.prefix prefix s.

Definition isASCIIByte (c : ascii) : bool := Nat.ltb (nat_of_ascii c) 128.

Definition isUpperByte (c : ascii) : bool :=
  Nat.leb 65 (nat_of_ascii c) && Nat.leb (nat_of_ascii c) 90.

(** [c += 'a' - 'A'] on the bytes ['A'..'Z']. *)
Definition lowerByte (c : ascii) : ascii :=
  if isUpperByte c then ascii_of_nat (nat_of_ascii c + 32) else c.

(** [strings.ToLower(s)].  A string of ASCII bytes only is mapped byte by
    byte (and returned as it is when it has no upper-case byte); any other
    string goes through [Map(unicode.ToLower, s)], whose case tables are
    taken as the parameter [unicodeLower]. *)
Definition ToLower (unicodeLower : string -> string) (s : string) : string :=
  if forall_bytes isASCIIByte s then
    if forall_bytes (fun c => negb (isUpperByte c)) s then s
    else map_bytes lowerByte s
  else unicodeLower s.

End strings.

(** ** The file system seen by [filepath.Walk] *)

(** [os.FileInfo], as far as the walk and its callback read it. *)
Record FileInfo := mkFileInfo { Name : string; IsDir : bool }.

(** What the walk finds behind a name: [os.Lstat] fails; or it succeeds on
    something that is not a directory; or on a directory whose names cannot
    be read; or on a directory, given by its entries in the order
    [readDirNames] returns them. *)
#[local] Unset Elimination Schemes.
Inductive inode : Type :=
| Missing (e : PathError)
| File
| Locked (e : PathError)
| Dir (entries : list (string * inode)).
#[local] Set Elimination Schemes.

(** Induction on a tree, with the hypothesis for every entry of a
    directory. *)
Fixpoint inode_tree_ind (P : inode -> Prop)
  (HMissing : forall e, P (Missing e))
  (HFile : P File)
  (HLocked : forall e, P (Locked e))
  (HDir : forall entries, Forall (fun x => P (snd x)) entries -> P (Dir entries))
  (n : inode) : P n :=
  match n with
  | Missing e => HMissing e
  | File => HFile
  | Locked e => HLocked e
  | Dir entries =>
      HDir entries
        ((fix all (l : list (string * inode)) : Forall (fun x => P (snd x)) l :=
            match l with
            | [] => Forall_nil _
            | x :: l' =>
                Forall_cons x (inode_tree_ind P HMissing HFile HLocked HDir (snd x))
                  (all l')
            end) entries)
  end.

(** [filepath.WalkFunc]. *)
Definition WalkFunc : Type :=
  string -> option FileInfo -> option error -> option error.

(** ** path/filepath *)

Module filepath.

(** [os.IsPathSeparator] on Unix. *)
Definition isSep (c : ascii) : bool := Ascii.eqb c "/"%char.

(** The loop
    [for len(path) > 0 && os.IsPathSeparator(path[len(path)-1])]
    of [Base], which strips the trailing separators. *)
Fixpoint stripTrailing (path : string) : string :=
  match path with
  | EmptyString => EmptyString
  | String c rest =>
      match stripTrailing rest with
      | EmptyString => if isSep c then EmptyString else String c EmptyString
      | t => String c t
      end
  end.

Fixpoint hasSep (path : string) : bool :=
  match path with
  | EmptyString => false
  | String c rest => isSep c || hasSep rest
  end.

(** [path[i+1:]] for the last [i] with a separator at [path[i]], the whole
    [path] when it has none. *)
Fixpoint lastElement (path : string) : string :=
  match path with
  | EmptyString => EmptyString
  | String c rest =>
      if hasSep rest then lastElement rest
      else if isSep c then rest else path
  end.

(** [filepath.Base(path)] on Unix, where the volume name is empty. *)
Definition Base (path : string) : string :=
  if String.eqb path "" then "."
  else
    let path := lastElement (stripTrailing path) in
    if String.eqb path "" then "/" else path.

(** [filepath.Join(dir, name)] for a cleaned [dir] and the name of one of
    its entries. *)
Definition Join (dir name : string) : string :=
  if String.eqb dir "." then name else dir ++ "/" ++ name.

(** The error with which the loop of [walk] returns after an entry gave
    [r], if it does: a [SkipDir] of a directory, or of the callback on an
    entry that [Lstat] rejects, only ends that entry. *)
Definition leaves (n : inode) (r : option error) : option error :=
  match r with
  | None => None
  | Some err =>
      match n with
      | File => Some err
      | Missing _ | Locked _ | Dir _ =>
          if isSkipDir err then None else Some err
      end
  end.

(** [walk(path, info, walkFn)] of path/filepath, where [info] is the
    result of [Lstat] on [path] and has the name [name].  The case
    [Missing] is the branch of the caller in which [Lstat] fails and
    [walkFn(filename, fileInfo, err)] is called in place of [walk]. *)
Fixpoint walk (walkFn : WalkFunc) (path name : string) (n : inode)
  : option error :=
  match n with
  | Missing e => walkFn path None (Some (pathError e))
  | File => walkFn path (Some (mkFileInfo name false)) None
  | Locked e => walkFn path (Some (mkFileInfo name true)) (Some (pathError e))
  | Dir entries =>
      match walkFn path (Some (mkFileInfo name true)) None with
      | Some err1 => Some err1
      | None =>
          (fix loop (names : list (string * inode)) : option error :=
             match names with
             | [] => None
             | (nm, child) :: rest =>
                 match leaves child (walk walkFn (Join path nm) nm child) with
                 | Some err => Some err
                 | None => loop rest
                 end
             end) entries
      end
  end.

(** [filepath.Walk(root, fn)], on the node that [root] names. *)
Definition Walk (root : string) (n : inode) (fn : WalkFunc) : option error :=
  match walk fn root root n with
  | Some err => if isSkipDir err then None else Some err
  | None => None
  end.

(** The calls [(path, info, err)] that a walk makes to a callback that
    always returns [nil], in order. *)
Fixpoint visits (path name : string) (n : inode)
  : list (string * option FileInfo * option error) :=
  match n with
  | Missing e => [(path, None, Some (pathError e))]
  | File => [(path, Some (mkFileInfo name false), None)]
  | Locked e => [(path, Some (mkFileInfo name true), Some (pathError e))]
  | Dir entries =>
      (path, Some (mkFileInfo name true), None) ::
      (fix loop (names : list (string * inode))
         : list (string * option FileInfo * option error) :=
         match names with
         | [] => []
         | (nm, child) :: rest =>
             (visits (Join path nm) nm child ++ loop rest)%list
         end) entries
  end.

End filepath.

(** The first non-nil result of a callback over a sequence of calls. *)
Fixpoint firstError (fn : WalkFunc)
  (calls : list (string * option FileInfo * option error)) : option error :=
  match calls with
  | [] => None
  | (path, info, err) :: rest =>
      match fn path info err with
      | Some e => Some e
      | None => firstError fn rest
      end
  end.

(** ** checkDir *)

Definition errNotAllowed : error :=
  errors.New ("only the go.mod and files with the prefix " ++ dquote ++ "(.)"
              ++ dquote ++ " are allowed before the init").

(** The name policy of the callback: [go.mod], or a leading dot. *)
Definition allowedName (name : string) : bool :=
  negb (negb (String.eqb name "go.mod") && negb (strings.HasPrefix name ".")).

(** The function literal that [checkDir] passes to [filepath.Walk]. *)
Definition checkDirFunc : WalkFunc :=
  fun path info err =>
    match err with
    | Some err => Some err
    | None =>
        match info with
        | None => Some nilDereference
        | Some info =>
            if negb (String.eqb (Name info) "go.mod")
               && negb (strings.HasPrefix (Name info) ".")
            then Some errNotAllowed
            else None
        end
    end.

(** [checkDir()], on the node that ["."] names. *)
Definition checkDirOn (cwd : inode) : option error :=
  match filepath.Walk "." cwd checkDirFunc with
  | Some err => Some err
  | None => None
  end.

(** ** The subcommand, its configuration and its collaborators *)

(** Modelled from the spec: the struct [config.Config] is declared in
    pkg/model/config, outside this file.  It is given here with the fields
    this file reads or binds to flags: the domain, the project name, the
    repository, the component-config flag and the layout. *)
Record Config := mkConfig {
  Domain : string;
  ProjectName : string;
  Repo : string;
  ComponentConfig : bool;
  Layout : string
}.

(** The struct [initSubcommand]; [config] stands for the record that the
    pointer refers to. *)
Record initSubcommand := mkInit {
  config : Config;
  commandName : string;
  license : string;
  owner : string;
  fetchDeps : bool;
  skipGoVersionCheck : bool
}.

(** One call [util.RunCmd(msg, cmd, args...)]. *)
Record Command := mkCommand {
  cmdMsg : string;
  cmdName : string;
  cmdArgs : list string
}.

(** What the file takes from outside its own text: the answers of the
    functions it imports, in the process that runs the subcommand, and two
    constants.  The checks of [Validate] are answered by the surroundings as
    they are; an external command is answered according to the commands
    that ran before it. *)
Record Env := mkEnv {
  goVersion : option error;                  (* util.ValidateGoVersion() *)
  workingTree : inode;                       (* what "." names for Lstat *)
  workingDir : string * option error;        (* os.Getwd() *)
  labelCheck : string -> option error;       (* validation.IsDNS1123Label *)
  currentRepo : string * option error;       (* util.FindCurrentRepo() *)
  execute : list Command -> Command -> option error;  (* util.RunCmd *)
  controllerRuntimeVersion : string;         (* scaffolds.ControllerRuntimeVersion *)
  unicodeLower : string -> string            (* Map(unicode.ToLower, s) *)
}.

(** The calls a run makes, with their results, and what it prints. *)
Inductive event : Type :=
| ValidateGoVersionCall (r : option error)
| WalkCall (root : string) (r : option error)
| GetwdCall (dir : string) (r : option error)
| IsDNS1123LabelCall (value : string) (r : option error)
| FindCurrentRepoCall (repo : string) (r : option error)
| RunCmdCall (c : Command) (r : option error)
| Print (text : string).

(** The receiver and the log of events, oldest first. *)
Record State := mkState { self : initSubcommand; trace : list event }.

Definition M (A : Type) : Type := Env -> State -> A * State.

Definition ret {A} (a : A) : M A := fun _ st => (a, st).

Definition bind {A B} (m : M A) (k : A -> M B) : M B :=
  fun env st => let (a, st') := m env st in k a env st'.

Definition asks {A} (f : Env -> A) : M A := fun env st => (f env, st).

Definition reads {A} (f : initSubcommand -> A) : M A :=
  fun _ st => (f (self st), st).

Definition modify (f : initSubcommand -> initSubcommand) : M unit :=
  fun _ st => (tt, mkState (f (self st)) (trace st)).

Definition emit (ev : event) : M unit :=
  fun _ st => (tt, mkState (self st) (trace st ++ [ev])).

(** The commands that ran so far. *)
Fixpoint commandsOf (tr : list event) : list Command :=
  match tr with
  | [] => []
  | RunCmdCall c _ :: tr' => c :: commandsOf tr'
  | _ :: tr' => commandsOf tr'
  end.

Declare Scope go_scope.
Delimit Scope go_scope with go.
Notation "x <- m ;; k" := (bind m (fun x => k))
  (at level 61, m at next level, right associativity) : go_scope.
Notation "' pat <- m ;; k" := (bind m (fun x => match x with pat => k end))
  (at level 61, pat pattern, m at next level, right associativity) : go_scope.
Notation "m ;; k" := (bind m (fun _ => k))
  (at level 61, right associativity) : go_scope.
(** [if err := m; err != nil { return err }], then [k]. *)
Notation "'check' m ;; k" :=
  (bind m (fun err => match err with Some e => ret (Some e) | None => k end))
  (at level 61, m at next level, right associativity) : go_scope.
Open Scope go_scope.

Module fmt.
(** [fmt.Errorf(format, args...)] without [%w], on the formatted text. *)
Definition Errorf (text : string) : error := errorString text.
Definition Println (text : string) : M unit := emit (Print (text ++ newline)).
Definition Printf (text : string) : M unit := emit (Print text).
End fmt.

Module os.
Definition Getwd : M (string * option error) :=
  r <- asks workingDir ;;
  emit (GetwdCall (fst r) (snd r)) ;;
  ret r.
End os.

Module util.
Definition ValidateGoVersion : M (option error) :=
  r <- asks goVersion ;;
  emit (ValidateGoVersionCall r) ;;
  ret r.

Definition FindCurrentRepo : M (string * option error) :=
  r <- asks currentRepo ;;
  emit (FindCurrentRepoCall (fst r) (snd r)) ;;
  ret r.

Definition RunCmd (msg cmd : string) (args : list string) : M (option error) :=
  fun env st =>
    let c := mkCommand msg cmd args in
    let r := execute env (commandsOf (trace st)) c in
    (r, mkState (self st) (trace st ++ [RunCmdCall c r])).
End util.

Module validation.
Definition IsDNS1123Label (value : string) : M (option error) :=
  r <- asks (fun env => labelCheck env value) ;;
  emit (IsDNS1123LabelCall value r) ;;
  ret r.
End validation.

Definition setProjectName (v : string) (p : initSubcommand) : initSubcommand :=
  let c := config p in
  mkInit (mkConfig (Domain c) v (Repo c) (ComponentConfig c) (Layout c))
    (commandName p) (license p) (owner p) (fetchDeps p) (skipGoVersionCheck p).

Definition setRepo (v : string) (p : initSubcommand) : initSubcommand :=
  let c := config p in
  mkInit (mkConfig (Domain c) (ProjectName c) v (ComponentConfig c) (Layout c))
    (commandName p) (license p) (owner p) (fetchDeps p) (skipGoVersionCheck p).

(** [checkDir()]: the walk from ["."] with the callback above. *)
Definition checkDir : M (option error) :=
  cwd <- asks workingTree ;;
  let err := checkDirOn cwd in
  emit (WalkCall "." err) ;;
  ret err.

(** [(p *initSubcommand) Validate()]. *)
Definition Validate : M (option error) :=
  skip <- reads skipGoVersionCheck ;;
  check (if negb skip then util.ValidateGoVersion else ret None) ;;
  check checkDir ;;
  name <- reads (fun p => ProjectName (config p)) ;;
  check (if String.eqb name "" then
           '(dir, err) <- os.Getwd ;;
           match err with
           | Some err =>
               ret (Some (fmt.Errorf ("error getting current directory: " ++ Error err)))
           | None =>
               lower <- asks unicodeLower ;;
               modify (setProjectName (strings.ToLower lower (filepath.Base dir))) ;;
               ret None
           end
         else ret None) ;;
  name <- reads (fun p => ProjectName (config p)) ;;
  err <- validation.IsDNS1123Label name ;;
  match err with
  | Some err =>
      ret (Some (fmt.Errorf ("project name (" ++ name ++ ") is invalid: " ++ Error err)))
  | None =>
      repo <- reads (fun p => Repo (config p)) ;;
      if String.eqb repo "" then
        '(repoPath, err) <- util.FindCurrentRepo ;;
        match err with
        | Some err =>
            ret (Some (fmt.Errorf ("error finding current repository: " ++ Error err)))
        | None => modify (setRepo repoPath) ;; ret None
        end
      else ret None
  end.

(** The three commands of [PostScaffold]. *)
Definition goGet (version : string) : Command :=
  mkCommand "Get controller runtime" "go"
    ["get"; "sigs.k8s.io/controller-runtime@" ++ version].
Definition goModTidy : Command := mkCommand "Update go.mod" "go" ["mod"; "tidy"].
Definition runMake : Command := mkCommand "Running make" "make" [].

Definition nextHint (commandName : string) : string :=
  "Next: define a resource with:" ++ newline ++ "$ " ++ commandName
  ++ " create api" ++ newline.

(** [(p *initSubcommand) PostScaffold()]. *)
Definition PostScaffold : M (option error) :=
  fetch <- reads fetchDeps ;;
  if negb fetch then
    fmt.Println "Skipping fetching dependencies." ;;
    ret None
  else
    version <- asks controllerRuntimeVersion ;;
    check util.RunCmd "Get controller runtime" "go"
            ["get"; "sigs.k8s.io/controller-runtime@" ++ version] ;;
    check util.RunCmd "Update go.mod" "go" ["mod"; "tidy"] ;;
    check util.RunCmd "Running make" "make" [] ;;
    name <- reads commandName ;;
    fmt.Printf (nextHint name) ;;
    ret None.

(** ** Trees, names and sample surroundings *)

(** The names of the entries below a node, at every depth, in the order of
    the walk. *)
Fixpoint entryNames (n : inode) : list string :=
  match n with
  | Dir entries =>
      (fix loop (names : list (string * inode)) : list string :=
         match names with
         | [] => []
         | (nm, child) :: rest => (nm :: entryNames child ++ loop rest)%list
         end) entries
  | _ => []
  end.

(** Every call of the file system succeeds on the node and below it. *)
Fixpoint readable (n : inode) : bool :=
  match n with
  | Missing _ | Locked _ => false
  | File => true
  | Dir entries =>
      (fix loop (names : list (string * inode)) : bool :=
         match names with
         | [] => true
         | (_, child) :: rest => readable child && loop rest
         end) entries
  end.

(** The names of the entries of the directory itself, without descending. *)
Definition topLevelNames (n : inode) : list string :=
  match n with
  | Dir entries => map fst entries
  | _ => []
  end.

Definition permissionDenied (path : string) : PathError :=
  mkPathError "open" path "permission denied".

(** Modelled from the spec: [validation.IsDNS1123Label] lives in
    pkg/internal/validation, outside this file.  The spec describes it as
    lower-case alphanumerics and hyphens, starting and ending with an
    alphanumeric, of bounded length; the bound is a parameter here.  It is
    used for the sample surroundings only. *)
Definition isLowerAlnum (c : ascii) : bool :=
  let k := nat_of_ascii c in
  (Nat.leb 97 k && Nat.leb k 122) || (Nat.leb 48 k && Nat.leb k 57).

Fixpoint labelTail (s : string) : bool :=
  match s with
  | EmptyString => true
  | String c EmptyString => isLowerAlnum c
  | String c rest => (isLowerAlnum c || Ascii.eqb c "-"%char) && labelTail rest
  end.

Definition isDNS1123Label (maxLength : nat) (value : string) : bool :=
  Nat.leb (String.length value) maxLength &&
  match value with
  | EmptyString => false
  | String c rest => isLowerAlnum c && labelTail rest
  end.

Definition sampleLabelCheck (value : string) : option error :=
  if isDNS1123Label 63 value then None
  else Some (errorString "a DNS-1123 label must consist of lower case alphanumeric characters or '-'").

(** A project directory [/home/dev/MyApp] that holds [.gitignore] and
    [go.mod], a module [example.com/myapp], and a tool chain in which every
    command succeeds. *)
Definition sampleEnv : Env :=
  mkEnv None
    (Dir [(".gitignore", File); ("go.mod", File)])
    ("/home/dev/MyApp", None)
    sampleLabelCheck
    ("example.com/myapp", None)
    (fun _ _ => None)
    "v0.6.3"
    (fun s => s).

(** The subcommand as the flags leave it by default. *)
Definition sampleInit : initSubcommand :=
  mkInit (mkConfig "my.domain" "" "" false "go.kubebuilder.io/v3")
    "kubebuilder" "apache2" "" true false.

(** ** Traces and further samples *)

(** The errors a walk hands to its callback come from the file system. *)
Definition fromFileSystem (err : option error) : Prop :=
  match err with
  | None | Some (pathError _) => True
  | Some _ => False
  end.

Definition neverSkips (fn : WalkFunc) : Prop :=
  forall p i e, fromFileSystem e -> fn p i e <> Some SkipDir.

(** A working directory that holds nothing but [.cache], a directory the
    user may not list; and the same with a source file next to it. *)
Definition lockedCache : inode :=
  Dir [(".cache", Locked (permissionDenied ".cache"))].

Definition lockedCacheAndSource : inode :=
  Dir [(".cache", Locked (permissionDenied ".cache")); ("main.go", File)].

(** A working directory under version control: [.git] with its [HEAD]. *)
Definition freshClone : inode :=
  Dir [(".git", Dir [("HEAD", File)]); (".gitignore", File)].

(** The error an event reports, if it reports one. *)
Definition failure (ev : event) : option error :=
  match ev with
  | ValidateGoVersionCall r | WalkCall _ r | GetwdCall _ r
  | IsDNS1123LabelCall _ r | FindCurrentRepoCall _ r | RunCmdCall _ r => r
  | Print _ => None
  end.

Definition failed (ev : event) : bool :=
  match failure ev with Some _ => true | None => false end.

(** No event follows a failed one. *)
Fixpoint stopsAtFailure (tr : list event) : bool :=
  match tr with
  | [] => true
  | ev :: rest =>
      if failed ev then match rest with [] => true | _ => false end
      else stopsAtFailure rest
  end.

(** Running a step from a fresh log. *)
Definition run {A} (m : M A) (env : Env) (p : initSubcommand) : A * State :=
  m env (mkState p []).

(** The commands of [PostScaffold], in the order of the source. *)
Definition plan (env : Env) : list Command :=
  [goGet (controllerRuntimeVersion env); goModTidy; runMake].

(** A tool chain in which [go mod tidy] fails. *)
Definition tidyFails : Env :=
  mkEnv None (workingTree sampleEnv) (workingDir sampleEnv) sampleLabelCheck
    (currentRepo sampleEnv)
    (fun ran c => if String.eqb (cmdMsg c) "Update go.mod"
                  then Some (errorString "exit status 1") else None)
    "v0.6.3" (fun s => s).

(** The place of a check in the order of [Validate]. *)
Definition stage (ev : event) : nat :=
  match ev with
  | ValidateGoVersionCall _ => 0
  | WalkCall _ _ => 1
  | GetwdCall _ _ => 2
  | IsDNS1123LabelCall _ _ => 3
  | FindCurrentRepoCall _ _ => 4
  | RunCmdCall _ _ | Print _ => 5
  end.

(** A directory outside any module: the detection of the repository
    fails. *)
Definition noModule : Env :=
  mkEnv None (workingTree sampleEnv) (workingDir sampleEnv) sampleLabelCheck
    ("", Some (errorString "could not determine repository path"))
    (fun _ _ => None) "v0.6.3" (fun s => s).

(** ** The other methods of the subcommand *)

(** Modelled from the spec: the struct [plugin.Context] is declared in
    pkg/plugin, outside this file.  It is given here with the fields this
    file reads or writes. *)
Record Context := mkContext {
  CommandName : string;
  Description : string;
  Examples : string
}.

Definition initDescription : string :=
  "Initialize a new project including vendor/ directory and Go package directories."
  ++ newline ++ newline
  ++ "Writes the following files:" ++ newline
  ++ "- a boilerplate license file" ++ newline
  ++ "- a PROJECT file with the domain and repo" ++ newline
  ++ "- a Makefile to build the project" ++ newline
  ++ "- a go.mod with project dependencies" ++ newline
  ++ "- a Kustomization.yaml for customizating manifests" ++ newline
  ++ "- a Patch file for customizing image for manager manifests" ++ newline
  ++ "- a Patch file for enabling prometheus metrics" ++ newline
  ++ "- a main.go to run" ++ newline.

(** The format of the examples, with the command name for its [%s]. *)
Definition initExamples (commandName : string) : string :=
  "  # Scaffold a project using the apache2 license with " ++ dquote
  ++ "The Kubernetes authors" ++ dquote ++ " as owners" ++ newline
  ++ "  " ++ commandName
  ++ " init --project-version=2 --domain example.org --license apache2 --owner "
  ++ dquote ++ "The Kubernetes authors" ++ dquote ++ newline.

Definition setCommandName (v : string) (p : initSubcommand) : initSubcommand :=
  mkInit (config p) v (license p) (owner p) (fetchDeps p) (skipGoVersionCheck p).

Definition setLicense (v : string) (p : initSubcommand) : initSubcommand :=
  mkInit (config p) (commandName p) v (owner p) (fetchDeps p) (skipGoVersionCheck p).

Definition setOwner (v : string) (p : initSubcommand) : initSubcommand :=
  mkInit (config p) (commandName p) (license p) v (fetchDeps p) (skipGoVersionCheck p).

Definition setFetchDeps (v : bool) (p : initSubcommand) : initSubcommand :=
  mkInit (config p) (commandName p) (license p) (owner p) v (skipGoVersionCheck p).

Definition setSkipGoVersionCheck (v : bool) (p : initSubcommand) : initSubcommand :=
  mkInit (config p) (commandName p) (license p) (owner p) (fetchDeps p) v.

Definition setConfig (c : Config) (p : initSubcommand) : initSubcommand :=
  mkInit c (commandName p) (license p) (owner p) (fetchDeps p) (skipGoVersionCheck p).

Definition setComponentConfig (v : bool) (p : initSubcommand) : initSubcommand :=
  let c := config p in
  setConfig (mkConfig (Domain c) (ProjectName c) (Repo c) v (Layout c)) p.

Definition setDomain (v : string) (p : initSubcommand) : initSubcommand :=
  let c := config p in
  setConfig (mkConfig v (ProjectName c) (Repo c) (ComponentConfig c) (Layout c)) p.

(** [(p *initSubcommand) UpdateContext(ctx *plugin.Context)]: the context
    and the receiver after the call. *)
Definition UpdateContext (ctx : Context) (p : initSubcommand)
  : Context * initSubcommand :=
  let ctx := mkContext (CommandName ctx) initDescription (Examples ctx) in
  let ctx := mkContext (CommandName ctx) (Description ctx)
               (initExamples (CommandName ctx)) in
  (ctx, setCommandName (CommandName ctx) p).

(** [(p *initSubcommand) InjectConfig(c *config.Config)], with the key of
    the plugin, [plugin.KeyFor(Plugin{})], as a parameter: the layout is
    written into the configuration, which the receiver then points to. *)
Definition InjectConfig (pluginKey : string) (c : Config) (p : initSubcommand)
  : initSubcommand :=
  let c := mkConfig (Domain c) (ProjectName c) (Repo c) (ComponentConfig c)
             pluginKey in
  setConfig c p.

(** A flag of a [pflag.FlagSet]: its name, the text of its default and its
    usage. *)
Record Flag := mkFlag {
  flagName : string;
  flagDefValue : string;
  flagUsage : string
}.

(** The formal flags of a [pflag.FlagSet], in the order of definition. *)
Definition FlagSet : Type := list Flag.

Module pflag.

Definition defined (fs : FlagSet) (name : string) : bool :=
  existsb (fun f => String.eqb (flagName f) name) fs.

(** [(f *FlagSet) AddFlag(flag)]: a name defined twice makes it panic
    ([None]). *)
Definition AddFlag (fs : FlagSet) (flag : Flag) : option FlagSet :=
  if defined fs (flagName flag) then None else Some (fs ++ [flag])%list.

(** [strconv.FormatBool]. *)
Definition formatBool (b : bool) : string := if b then "true" else "false".

(** [(f *FlagSet) BoolVar(p, name, value, usage)]: the default is stored in
    the variable, given by its setter, then the flag is added. *)
Definition BoolVar (set : bool -> initSubcommand -> initSubcommand)
  (name : string) (value : bool) (usage : string)
  (st : FlagSet * initSubcommand) : option (FlagSet * initSubcommand) :=
  let p := set value (snd st) in
  match AddFlag (fst st) (mkFlag name (formatBool value) usage) with
  | Some fs => Some (fs, p)
  | None => None
  end.

(** [(f *FlagSet) StringVar(p, name, value, usage)]. *)
Definition StringVar (set : string -> initSubcommand -> initSubcommand)
  (name : string) (value : string) (usage : string)
  (st : FlagSet * initSubcommand) : option (FlagSet * initSubcommand) :=
  let p := set value (snd st) in
  match AddFlag (fst st) (mkFlag name value usage) with
  | Some fs => Some (fs, p)
  | None => None
  end.

End pflag.

(** One statement after another, as long as none panics. *)
Definition andThen {A B C} (f : A -> option B) (g : B -> option C) (a : A)
  : option C :=
  match f a with
  | Some b => g b
  | None => None
  end.

(** [(p *initSubcommand) BindFlags(fs *pflag.FlagSet)], for a receiver whose
    configuration has been injected: the flag set and the receiver after the
    call, or [None] when a definition panics. *)
Definition BindFlags (fs : FlagSet) (p : initSubcommand)
  : option (FlagSet * initSubcommand) :=
  andThen (pflag.BoolVar setSkipGoVersionCheck "skip-go-version-check"
             false "if specified, skip checking the Go version")
  (andThen (pflag.BoolVar setFetchDeps "fetch-deps" true
              "ensure dependencies are downloaded")
  (andThen (pflag.StringVar setLicense "license" "apache2"
              "license to use to boilerplate, may be one of 'apache2', 'none'")
  (andThen (pflag.StringVar setOwner "owner" "" "owner to add to the copyright")
  (andThen (pflag.BoolVar setComponentConfig "component-config" false
              "create a versioned ComponentConfig file, may be 'true' or 'false'")
  (andThen (pflag.StringVar setRepo "repo" ""
              ("name to use for go module (e.g., github.com/user/repo), "
               ++ "defaults to the go package of the current working directory."))
  (andThen (pflag.StringVar setDomain "domain" "my.domain" "domain for groups")
           (pflag.StringVar setProjectName "project-name" ""
              "name of this project")))))))
  (fs, p).

(** The names [BindFlags] defines, in order. *)
Definition initFlagNames : list string :=
  ["skip-go-version-check"; "fetch-deps"; "license"; "owner";
   "component-config"; "repo"; "domain"; "project-name"].

(** The receiver as [BindFlags] leaves it: every bound variable holds the
    default of its flag. *)
Definition withFlagDefaults (p : initSubcommand) : initSubcommand :=
  mkInit (mkConfig "my.domain" "" "" false (Layout (config p)))
    (commandName p) "apache2" "" true false.

(** The names and the defaults of the flags of [init], in the order of
    definition. *)
Definition initFlagDefaults : list (string * string) :=
  [("skip-go-version-check", "false"); ("fetch-deps", "true");
   ("license", "apache2"); ("owner", ""); ("component-config", "false");
   ("repo", ""); ("domain", "my.domain"); ("project-name", "")].

Definition nameAndDefault (f : Flag) : string * string :=
  (flagName f, flagDefValue f).

(** ** Further notions for the properties below *)

(** The errors the file system holds in a tree. *)
Fixpoint fsErrors (n : inode) : list PathError :=
  match n with
  | Missing e | Locked e => [e]
  | File => []
  | Dir entries =>
      (fix loop (names : list (string * inode)) : list PathError :=
         match names with
         | [] => []
         | (_, child) :: rest => (fsErrors child ++ loop rest)%list
         end) entries
  end.

(** The visits of the entries of a directory [path]. *)
Definition entriesVisits (path : string) (entries : list (string * inode))
  : list (string * option FileInfo * option error) :=
  flat_map (fun x => filepath.visits (filepath.Join path (fst x)) (fst x) (snd x))
    entries.

(** An entry that the walk passes: its name is allowed, it can be read
    throughout, and so are the names below it. *)
Definition passes (x : string * inode) : bool :=
  allowedName (fst x) && readable (snd x)
  && forallb allowedName (entryNames (snd x)).

(** What a walk hands to its callback: a file info without an error, or
    an error of the file system that satisfies [P]. *)
Definition wellFormedCall (P : PathError -> Prop)
  (call : string * option FileInfo * option error) : Prop :=
  match call with
  | (_, Some _, None) => True
  | (_, _, Some (pathError e)) => P e
  | _ => False
  end.

(** The surroundings with another answer of the version check. *)
Definition withGoVersion (r : option error) (env : Env) : Env :=
  mkEnv r (workingTree env) (workingDir env) (labelCheck env) (currentRepo env)
    (execute env) (controllerRuntimeVersion env) (unicodeLower env).

Definition isValidateCheck (ev : event) : bool :=
  match ev with
  | RunCmdCall _ _ | Print _ => false
  | _ => true
  end.

(** ** The walk as a search for the first failure *)

Lemma firstError_app fn a b :
  firstError fn (a ++ b)
  = match firstError fn a with Some e => Some e | None => firstError fn b end.
Proof.
  induction a as [|[[p i] e] a IH]; simpl; [reflexivity|].
  destruct (fn p i e); [reflexivity | apply IH].
Qed.

Lemma leaves_id n r :
  r <> Some SkipDir -> filepath.leaves n r = r.
Proof.
  intros H. destruct r as [[]|]; destruct n; simpl; try reflexivity;
    exfalso; apply H; reflexivity.
Qed.

Lemma visits_fromFileSystem n :
  forall path name,
    Forall (fun call => fromFileSystem (snd call)) (filepath.visits path name n).
Proof.
  induction n as [e| |e|entries IH] using inode_tree_ind;
    intros path name; simpl; try (repeat constructor).
  induction IH as [|[nm child] rest Hc _ IHrest]; simpl in *; [constructor|].
  apply Forall_app; split; [apply Hc | apply IHrest].
Qed.

Lemma firstError_never_skips (fn : WalkFunc) calls :
  neverSkips fn ->
  Forall (fun call => fromFileSystem (snd call)) calls ->
  firstError fn calls <> Some SkipDir.
Proof.
  intros Hfn Hcalls.
  induction Hcalls as [|[[p i] e] l He _ IHl]; simpl in *; [discriminate|].
  destruct (fn p i e) eqn:E; [rewrite <- E; apply Hfn, He | exact IHl].
Qed.

(** A callback that never asks to skip is called on the visits in order,
    and the walk returns its first error. *)
Lemma walk_firstError (fn : WalkFunc) :
  neverSkips fn ->
  forall n path name,
    filepath.walk fn path name n = firstError fn (filepath.visits path name n).
Proof.
  intros Hfn n.
  induction n as [e| |e|entries IH] using inode_tree_ind;
    intros path name; simpl;
    try (destruct (fn _ _ _); reflexivity).
  destruct (fn path (Some (mkFileInfo name true)) None); [reflexivity|].
  induction IH as [|[nm child] rest Hc _ IHrest]; simpl in *; [reflexivity|].
  rewrite firstError_app, <- Hc.
  rewrite leaves_id
    by (rewrite Hc; apply firstError_never_skips;
        [exact Hfn | apply visits_fromFileSystem]).
  destruct (filepath.walk fn (filepath.Join path nm) nm child);
    [reflexivity | apply IHrest].
Qed.

Lemma checkDirFunc_never_skips : neverSkips checkDirFunc.
Proof.
  intros p i e He. unfold checkDirFunc.
  destruct e as [[]|]; simpl in He; try contradiction; try discriminate.
  destruct i as [i|]; [|discriminate].
  destruct (_ && _); discriminate.
Qed.

(** [checkDir] returns the first error of its callback over the visits. *)
Lemma checkDirOn_firstError cwd :
  checkDirOn cwd = firstError checkDirFunc (filepath.visits "." "." cwd).
Proof.
  unfold checkDirOn, filepath.Walk.
  rewrite (walk_firstError _ checkDirFunc_never_skips).
  destruct (firstError _ _) as [e|] eqn:E; [|reflexivity].
  destruct e; try reflexivity.
  exfalso.
  exact (firstError_never_skips _ _ checkDirFunc_never_skips
           (visits_fromFileSystem _ _ _) E).
Qed.

(** On a tree that can be read throughout, the outcome is decided by the
    names met, the node's own name included. *)
Lemma firstError_readable n :
  forall path name,
    readable n = true ->
    firstError checkDirFunc (filepath.visits path name n)
    = if allowedName name && forallb allowedName (entryNames n)
      then None else Some errNotAllowed.
Proof.
  induction n as [e| |e|entries IH] using inode_tree_ind;
    intros path name Hr; simpl in *;
    try discriminate.
  - unfold allowedName. destruct (_ && _); reflexivity.
  - unfold allowedName at 1.
    destruct (negb (name =? "go.mod")%string && negb (strings.HasPrefix name "."));
      simpl; [reflexivity|].
    revert Hr.
    induction IH as [|[nm child] rest Hc _ IHrest]; simpl in *; intros Hr;
      [reflexivity|].
    apply andb_prop in Hr as [Hr1 Hr2].
    rewrite firstError_app, (Hc _ _ Hr1), forallb_app.
    destruct (allowedName nm); simpl; [|reflexivity].
    destruct (forallb allowedName (entryNames child)); simpl; [|reflexivity].
    apply IHrest, Hr2.
Qed.

(** ** The model on small inputs *)

Example Base_samples :
  filepath.Base "/home/dev/MyApp" = "MyApp"
  /\ filepath.Base "/home/dev/MyApp//" = "MyApp"
  /\ filepath.Base "MyApp" = "MyApp"
  /\ filepath.Base "" = "."
  /\ filepath.Base "///" = "/".
Proof. repeat split. Qed.

Example visits_freshClone :
  map fst (map fst (filepath.visits "." "." freshClone))
  = ["."; ".git"; ".git/HEAD"; ".gitignore"].
Proof. reflexivity. Qed.

Example Validate_sample :
  fst (run Validate sampleEnv sampleInit) = None
  /\ trace (snd (run Validate sampleEnv sampleInit))
     = [ValidateGoVersionCall None; WalkCall "." None;
        GetwdCall "/home/dev/MyApp" None; IsDNS1123LabelCall "myapp" None;
        FindCurrentRepoCall "example.com/myapp" None].
Proof. split; reflexivity. Qed.

(** ** checkDir: the name policy and the errors of the walk *)

Lemma allowedName_spec name :
  allowedName name = true <->
  name = "go.mod" \/ exists rest, name = "." ++ rest.
Proof.
  unfold allowedName, strings.HasPrefix.
  destruct (String.eqb_spec name "go.mod") as [->|Hne]; simpl.
  - split; [left; reflexivity | reflexivity].
  - destruct name as [|c rest].
    + simpl. split; [intros H; discriminate H
                    | intros [H|[r H]]; [congruence | discriminate H]].
    + cbn [String.prefix].
      destruct (Ascii.ascii_dec "." c) as [<-|Hc].
      * assert (E : String.prefix "" rest = true) by (destruct rest; reflexivity).
        rewrite E. simpl.
        split; [right; eexists; reflexivity | reflexivity].
      * simpl. split; [intros H; discriminate H|].
        intros [H|[r H]]; [congruence | injection H as H _; congruence].
Qed.

(** C1, as stated, fails on entries the walk cannot read.  In [lockedCache]
    every entry, at every depth, has a dot-prefixed name, and [checkDir]
    does not return ok; in [lockedCacheAndSource] there is one more entry,
    [main.go], which is neither [go.mod] nor dot-prefixed, and [checkDir]
    returns the error of the file system, not the one about the names. *)
Lemma checkDir_unreadable_entry :
  (Forall (fun name => allowedName name = true) (entryNames lockedCache)
   /\ Forall (fun name => allowedName name = true) (topLevelNames lockedCache)
   /\ checkDirOn lockedCache <> None)
  /\
  ((exists name, In name (entryNames lockedCacheAndSource)
                 /\ allowedName name = false)
   /\ checkDirOn lockedCacheAndSource <> Some errNotAllowed).
Proof.
  split; [split; [|split] | split].
  - repeat constructor.
  - repeat constructor.
  - discriminate.
  - exists "main.go". split; [simpl; auto | reflexivity].
  - discriminate.
Qed.

(** C1, amended.  On a working directory that the walk reads without an
    error of the file system: if every entry, at every depth, is named
    [go.mod] or has a dot-prefixed name, [checkDir] returns ok; if some
    entry, at any depth, has a name that is neither, [checkDir] returns the
    error about the names.  The policy is applied to every entry the
    recursive walk visits. *)
Theorem checkDir_name_policy (cwd : inode) :
  readable cwd = true ->
  (Forall (fun name => allowedName name = true) (entryNames cwd) ->
   checkDirOn cwd = None)
  /\
  ((exists name, In name (entryNames cwd) /\ allowedName name = false) ->
   checkDirOn cwd = Some errNotAllowed).
Proof.
  intros Hr.
  rewrite checkDirOn_firstError, (firstError_readable _ _ _ Hr).
  change (allowedName ".") with true. simpl andb.
  split.
  - intros Hall. rewrite Forall_forall in Hall.
    rewrite (proj2 (forallb_forall allowedName (entryNames cwd)) Hall).
    reflexivity.
  - intros [name [Hin Hbad]].
    destruct (forallb allowedName (entryNames cwd)) eqn:E; [|reflexivity].
    rewrite forallb_forall in E. rewrite (E _ Hin) in Hbad. discriminate.
Qed.

Lemma checkDir_name_policy_witness :
  readable (workingTree sampleEnv) = true
  /\ checkDirOn (workingTree sampleEnv) = None.
Proof.
  split; [reflexivity|].
  apply (checkDir_name_policy (workingTree sampleEnv)); [reflexivity|].
  repeat constructor.
Defined.

(** The walk descends into dot-prefixed directories: the entries of the
    working directory itself are all dot-prefixed in [freshClone], and the
    [HEAD] inside [.git] makes [checkDir] fail. *)
Example checkDir_descends_into_dot_directories :
  Forall (fun name => allowedName name = true) (topLevelNames freshClone)
  /\ readable freshClone = true
  /\ checkDirOn freshClone = Some errNotAllowed.
Proof.
  split; [repeat constructor | split; reflexivity].
Qed.

(** C10.  When the walk reaches a call in which it hands an error of the
    file system to the callback, every earlier call having passed,
    [checkDir] returns that very error, and not the error about the
    names. *)
Theorem checkDir_propagates_walk_error
  (cwd : inode) before path info (e : PathError) after :
  filepath.visits "." "." cwd
    = (before ++ (path, info, Some (pathError e)) :: after)%list ->
  firstError checkDirFunc before = None ->
  checkDirOn cwd = Some (pathError e)
  /\ checkDirOn cwd <> Some errNotAllowed.
Proof.
  intros Hv Hb.
  assert (H : checkDirOn cwd = Some (pathError e)).
  { rewrite checkDirOn_firstError, Hv, firstError_app, Hb. reflexivity. }
  split; [exact H | rewrite H; discriminate].
Qed.

Lemma checkDir_propagates_walk_error_witness :
  checkDirOn lockedCacheAndSource = Some (pathError (permissionDenied ".cache"))
  /\ checkDirOn lockedCacheAndSource <> Some errNotAllowed.
Proof.
  apply (checkDir_propagates_walk_error lockedCacheAndSource
           [(".", Some (mkFileInfo "." true), None)]
           ".cache" (Some (mkFileInfo ".cache" true))
           (permissionDenied ".cache")
           [("main.go", Some (mkFileInfo "main.go" false), None)]);
    reflexivity.
Defined.

Lemma stopsAtFailure_spec tr :
  stopsAtFailure tr = true ->
  forall before ev after,
    tr = (before ++ ev :: after)%list -> failed ev = true -> after = [].
Proof.
  intros Hs before. revert tr Hs.
  induction before as [|b before IH]; intros tr Hs ev after -> Hf; simpl in Hs.
  - rewrite Hf in Hs. destruct after; [reflexivity | discriminate].
  - destruct (failed b).
    + destruct before; discriminate.
    + exact (IH _ Hs _ _ eq_refl Hf).
Qed.

(** ** PostScaffold *)

(** C6.  With [fetchDeps] false, [PostScaffold] runs no external command,
    prints the message that fetching is skipped, and returns ok; the
    receiver is left as it was. *)
Theorem PostScaffold_skips_fetching (env : Env) (p : initSubcommand) :
  fetchDeps p = false ->
  fst (run PostScaffold env p) = None
  /\ trace (snd (run PostScaffold env p))
     = [Print ("Skipping fetching dependencies." ++ newline)]
  /\ commandsOf (trace (snd (run PostScaffold env p))) = []
  /\ self (snd (run PostScaffold env p)) = p.
Proof.
  intros Hf. unfold run, PostScaffold, bind, reads, ret, fmt.Println, emit.
  cbn [self trace]. rewrite Hf. cbn. repeat split.
Qed.

Lemma PostScaffold_skips_fetching_witness :
  fst (run PostScaffold sampleEnv
         (mkInit (config sampleInit) "kubebuilder" "apache2" "" false false))
  = None.
Proof.
  apply (PostScaffold_skips_fetching sampleEnv
           (mkInit (config sampleInit) "kubebuilder" "apache2" "" false false)).
  reflexivity.
Defined.

(** The run of [PostScaffold] with fetching enabled, by the outcome of its
    commands. *)
Lemma PostScaffold_cases (env : Env) (p : initSubcommand) :
  fetchDeps p = true ->
  let c1 := goGet (controllerRuntimeVersion env) in
  let r1 := execute env [] c1 in
  let r2 := execute env [c1] goModTidy in
  let r3 := execute env [c1; goModTidy] runMake in
  run PostScaffold env p =
  match r1 with
  | Some e => (Some e, mkState p [RunCmdCall c1 r1])
  | None =>
      match r2 with
      | Some e => (Some e, mkState p [RunCmdCall c1 r1; RunCmdCall goModTidy r2])
      | None =>
          match r3 with
          | Some e =>
              (Some e, mkState p [RunCmdCall c1 r1; RunCmdCall goModTidy r2;
                                  RunCmdCall runMake r3])
          | None =>
              (None, mkState p [RunCmdCall c1 r1; RunCmdCall goModTidy r2;
                                RunCmdCall runMake r3;
                                Print (nextHint (commandName p))])
          end
      end
  end.
Proof.
  intros Hf c1 r1 r2 r3. subst c1 r1 r2 r3.
  unfold run, PostScaffold, bind, reads, asks, ret, util.RunCmd, fmt.Printf, emit.
  cbn [self trace]. rewrite Hf. cbn [self trace negb commandsOf app].
  fold (goGet (controllerRuntimeVersion env)). fold goModTidy. fold runMake.
  destruct (execute env [] _) as [e1|]; [reflexivity|].
  cbn [self trace commandsOf app].
  destruct (execute env [_] _) as [e2|]; [reflexivity|].
  cbn [self trace commandsOf app].
  destruct (execute env [_; _] _) as [e3|]; reflexivity.
Qed.

(** Every way to cut a log of known length around one of its events. *)
Ltac split_trace H :=
  match type of H with
  | [] = (?b ++ _ :: _)%list => destruct b; discriminate H
  | (_ :: _) = (?b ++ _ :: _)%list =>
      let x := fresh "x" in
      let Hx := fresh "Hx" in
      destruct b as [|x b]; cbn [app] in H;
      [ inversion H; subst; clear H
      | injection H as Hx H; subst x; split_trace H ]
  end.

(** C2.  With fetching enabled, the commands [PostScaffold] runs are an
    initial part of the plan (go get of the pinned controller-runtime, then
    go mod tidy, then make), each answered by the tool chain after the
    commands before it.  A command that fails is the last event of the run:
    no command follows it, the hint is not printed, and [PostScaffold]
    returns the error of that command as it is.  The hint is printed exactly
    when the run succeeds, which is when all three commands ran. *)
Theorem PostScaffold_sequence (env : Env) (p : initSubcommand) :
  fetchDeps p = true ->
  let r := fst (run PostScaffold env p) in
  let tr := trace (snd (run PostScaffold env p)) in
  (exists n, commandsOf tr = firstn n (plan env))
  /\ (forall before c r' after,
        tr = (before ++ RunCmdCall c r' :: after)%list ->
        r' = execute env (commandsOf before) c)
  /\ (forall before c e after,
        tr = (before ++ RunCmdCall c (Some e) :: after)%list ->
        after = [] /\ r = Some e)
  /\ (forall e, r = Some e ->
        exists before c, tr = (before ++ [RunCmdCall c (Some e)])%list)
  /\ (In (Print (nextHint (commandName p))) tr <-> r = None)
  /\ (r = None -> commandsOf tr = plan env).
Proof.
  intros Hf r tr. subst r tr.
  rewrite (PostScaffold_cases env p Hf). unfold plan.
  destruct (execute env [] _) as [e1|] eqn:E1;
    [|destruct (execute env [_] _) as [e2|] eqn:E2;
      [|destruct (execute env [_; _] _) as [e3|] eqn:E3]];
    cbn [fst snd trace commandsOf].
  - split; [exists 1; reflexivity|].
    split; [intros before c r' after H; split_trace H; cbn; congruence|].
    split; [intros before c e after H; split_trace H; split; reflexivity|].
    split; [intros e [= <-]; exists [], (goGet (controllerRuntimeVersion env));
            reflexivity|].
    split; [split; [intros [H|[]]; discriminate H | discriminate] | discriminate].
  - split; [exists 2; reflexivity|].
    split; [intros before c r' after H; split_trace H; cbn; congruence|].
    split; [intros before c e after H; split_trace H; split; reflexivity|].
    split; [intros e [= <-];
            exists [RunCmdCall (goGet (controllerRuntimeVersion env)) None], goModTidy;
            reflexivity|].
    split; [split; [intros [H|[H|[]]]; discriminate H | discriminate]
           | discriminate].
  - split; [exists 3; reflexivity|].
    split; [intros before c r' after H; split_trace H; cbn; congruence|].
    split; [intros before c e after H; split_trace H; split; reflexivity|].
    split; [intros e [= <-];
            exists [RunCmdCall (goGet (controllerRuntimeVersion env)) None;
                    RunCmdCall goModTidy None], runMake;
            reflexivity|].
    split; [split; [intros [H|[H|[H|[]]]]; discriminate H | discriminate]
           | discriminate].
  - split; [exists 3; reflexivity|].
    split; [intros before c r' after H; split_trace H; cbn; congruence|].
    split; [intros before c e after H; split_trace H|].
    split; [discriminate|].
    split; [split; [reflexivity | intros _; simpl; auto] | reflexivity].
Qed.

Lemma PostScaffold_sequence_witness :
  fst (run PostScaffold tidyFails sampleInit) = Some (errorString "exit status 1")
  /\ commandsOf (trace (snd (run PostScaffold tidyFails sampleInit)))
     = [goGet "v0.6.3"; goModTidy].
Proof.
  destruct (PostScaffold_sequence tidyFails sampleInit eq_refl)
    as (_ & _ & Hstop & _).
  split; [|reflexivity].
  exact (proj2 (Hstop [RunCmdCall (goGet "v0.6.3") None] goModTidy
                  (errorString "exit status 1") [] eq_refl)).
Defined.

(** ** Validate *)

Ltac unfold_Validate E :=
  unfold run, Validate, checkDir, util.ValidateGoVersion, os.Getwd,
    validation.IsDNS1123Label, util.FindCurrentRepo, fmt.Errorf,
    bind, reads, asks, ret, modify, emit in E.

Ltac reduce_in E :=
  cbn -[String.append strings.ToLower filepath.Base Error checkDirOn String.eqb]
    in E.

(** Case analysis on everything a run of [Validate] branches on. *)
Ltac cases_in E :=
  unfold_Validate E; reduce_in E;
  repeat (match type of E with
          | context [skipGoVersionCheck ?p] =>
              destruct (skipGoVersionCheck p) eqn:?
          | context [match ?x with _ => _ end] =>
              lazymatch x with
              | context [match _ with _ => _ end] => fail
              | _ => destruct x eqn:?
              end
          end; reduce_in E).

(** The tests [s == t] of the source, as equations. *)
Ltac eqb_hyps :=
  repeat match goal with
    | Heq : (_ =? _)%string = true |- _ => apply String.eqb_eq in Heq
    | Heq : (_ =? _)%string = false |- _ => apply String.eqb_neq in Heq
    end.

(** C9.  [Validate] leaves the domain, the component-config flag and the
    layout of the configuration, and the license, the owner and the two
    flags of the subcommand, as they were; it writes the project name only
    if that was empty on entry, and the repository only if that was empty
    on entry. *)
Theorem Validate_frame (env : Env) (st0 : State) :
  let p := self st0 in
  let p' := self (snd (Validate env st0)) in
  Domain (config p') = Domain (config p)
  /\ ComponentConfig (config p') = ComponentConfig (config p)
  /\ Layout (config p') = Layout (config p)
  /\ license p' = license p
  /\ owner p' = owner p
  /\ fetchDeps p' = fetchDeps p
  /\ skipGoVersionCheck p' = skipGoVersionCheck p
  /\ commandName p' = commandName p
  /\ (ProjectName (config p) <> "" ->
      ProjectName (config p') = ProjectName (config p))
  /\ (Repo (config p) <> "" -> Repo (config p') = Repo (config p)).
Proof.
  intros p p'. subst p p'.
  destruct (Validate env st0) as [r st] eqn:E.
  cases_in E.
  all: injection E as <- <-; cbn [snd self config setProjectName setRepo
         Domain ProjectName Repo ComponentConfig Layout license owner
         fetchDeps skipGoVersionCheck commandName].
  all: repeat split; intros; try reflexivity; try assumption.
  all: eqb_hyps; congruence.
Qed.

Ltac solve_order :=
  repeat constructor; cbn; lia.

Ltac no_such_event H :=
  cbn in H; repeat (destruct H as [H|H]; [discriminate H|]); contradiction.

(** C3.  The checks of [Validate] run in one order: the version of the tool
    chain (unless the option to skip it is set), the directory, the working
    directory and the label of the project name, the repository.  A check
    that fails is the last event of the run and makes [Validate] fail, and
    [Validate] only fails that way.  So a failed version check is the only
    event of its run, and after a rejected project name no repository is
    looked for.  Each check is performed as soon as the ones before it have
    passed: the directory check after the version check, [os.Getwd] for an
    empty project name and then the label predicate after the directory
    check, the detection of an empty repository after the label predicate;
    so a run that returns ok has asked for the working directory of an
    empty project name and has looked for an empty repository. *)
Theorem Validate_order (env : Env) (p : initSubcommand) :
  let r := fst (run Validate env p) in
  let tr := trace (snd (run Validate env p)) in
  StronglySorted (fun a b => stage a < stage b) tr
  /\ ((exists r', In (ValidateGoVersionCall r') tr)
      <-> skipGoVersionCheck p = false)
  /\ (forall before ev after,
        tr = (before ++ ev :: after)%list -> failed ev = true ->
        after = [] /\ r <> None)
  /\ (r <> None ->
      exists before ev, tr = (before ++ [ev])%list /\ failed ev = true)
  /\ (forall e, skipGoVersionCheck p = false -> goVersion env = Some e ->
        r = Some e /\ tr = [ValidateGoVersionCall (Some e)])
  /\ (forall value e, In (IsDNS1123LabelCall value (Some e)) tr ->
        forall repo r', ~ In (FindCurrentRepoCall repo r') tr)
  /\ (r = None ->
      (exists r', In (WalkCall "." r') tr)
      /\ (exists value, In (IsDNS1123LabelCall value None) tr))
  /\ ((skipGoVersionCheck p = true \/ goVersion env = None) ->
      In (WalkCall "." (checkDirOn (workingTree env))) tr)
  /\ (In (WalkCall "." None) tr ->
      (ProjectName (config p) = "" ->
       In (GetwdCall (fst (workingDir env)) (snd (workingDir env))) tr)
      /\ ((ProjectName (config p) <> "" \/ snd (workingDir env) = None) ->
          exists value r', In (IsDNS1123LabelCall value r') tr))
  /\ ((exists value, In (IsDNS1123LabelCall value None) tr) ->
      Repo (config p) = "" ->
      In (FindCurrentRepoCall (fst (currentRepo env)) (snd (currentRepo env)))
         tr)
  /\ (r = None ->
      (ProjectName (config p) = "" -> exists dir, In (GetwdCall dir None) tr)
      /\ (Repo (config p) = "" ->
          exists repo, In (FindCurrentRepoCall repo None) tr)).
Proof.
  intros r tr. subst r tr.
  destruct (run Validate env p) as [r st] eqn:E.
  cases_in E.
  all: injection E as <- <-; cbn [fst snd trace].
  all: split; [solve_order|].
  all: split;
    [split; [intros [r' H]; try reflexivity; try no_such_event H
            | intros H; try discriminate H; eexists; cbn; eauto]|].
  all: split;
    [intros before ev after H Hf; split;
       [eapply stopsAtFailure_spec; [|exact H|exact Hf]; reflexivity
       |try discriminate; split_trace H; discriminate Hf]|].
  all: split;
    [intros Hr; try (exfalso; apply Hr; reflexivity);
     match goal with
     | |- exists before ev, ?l = _ /\ _ =>
         exists (removelast l), (last l (Print "")); split; reflexivity
     end|].
  all: split; [intros e0 Hs Hg; try discriminate Hs; try discriminate Hg;
               injection Hg as <-; split; reflexivity|].
  all: split;
    [intros value e0 Hin repo r' Hrepo; try no_such_event Hrepo;
     no_such_event Hin|].
  all: split;
    [intros Hr; try discriminate Hr; split; eexists; cbn; eauto 10|].
  all: eqb_hyps.
  all: split; [intros [Hv|Hv]; first [congruence | cbn; auto 10]|].
  all: split;
    [intros Hw;
     first
       [ no_such_event Hw
       | split;
         [ intros Hn; first [congruence | cbn; auto 10]
         | intros [Hn|Hn];
           first [congruence | cbn in Hn; congruence
                 | eexists; eexists; cbn; eauto 10] ] ]|].
  all: split;
    [intros [value Hl] Hrepo;
     first [no_such_event Hl | congruence | cbn; auto 10]|].
  all: intros Hr; try discriminate Hr;
    split; intros Hn; first [congruence | eexists; cbn; eauto 10].
Qed.

Lemma ToLower_MyApp (lower : string -> string) :
  strings.ToLower lower "MyApp" = "myapp".
Proof. reflexivity. Qed.

(** C4.  Once the version and the directory checks have passed (and the
    working directory is known, where it is asked for): an empty project
    name is set to the lower-case base name of the working directory, so to
    [myapp] in a directory named [MyApp], and a given one is kept; the name
    so resolved is the one handed to the label predicate; and when the
    predicate rejects it, [Validate] returns an error whose message holds
    the name. *)
Theorem Validate_project_name (env : Env) (p : initSubcommand) :
  (skipGoVersionCheck p = true \/ goVersion env = None) ->
  checkDirOn (workingTree env) = None ->
  (ProjectName (config p) = "" -> snd (workingDir env) = None) ->
  let r := fst (run Validate env p) in
  let st := snd (run Validate env p) in
  let name := ProjectName (config (self st)) in
  (ProjectName (config p) = "" ->
   name = strings.ToLower (unicodeLower env) (filepath.Base (fst (workingDir env))))
  /\ (ProjectName (config p) = "" ->
      filepath.Base (fst (workingDir env)) = "MyApp" -> name = "myapp")
  /\ (ProjectName (config p) <> "" -> name = ProjectName (config p))
  /\ In (IsDNS1123LabelCall name (labelCheck env name)) (trace st)
  /\ (forall e, labelCheck env name = Some e ->
        r = Some (fmt.Errorf ("project name (" ++ name ++ ") is invalid: "
                              ++ Error e))
        /\ exists err, r = Some err /\ includes name (Error err)).
Proof.
  intros Hversion Hdir Hwd r st name. subst r st name.
  destruct (run Validate env p) as [r st] eqn:E.
  cases_in E.
  all: injection E as <- <-;
    cbn [fst snd trace self config ProjectName setProjectName setRepo] in *.
  all: eqb_hyps.
  all: try (destruct Hversion; congruence).
  all: try congruence.
  all: try (specialize (Hwd ltac:(assumption)); congruence).
  all: repeat match goal with
         | H : labelCheck _ _ = _ |- _ => rewrite H
         end.
  all: split; [intros; try reflexivity; try congruence|].
  all: split; [intros H0 H1; try congruence;
               rewrite H1; apply ToLower_MyApp|].
  all: split; [intros; try reflexivity; try congruence|].
  all: split; [cbn; auto 10|].
  all: intros e0 He0; try discriminate He0; injection He0 as <-.
  all: split; [reflexivity|].
  all: eexists; split; [reflexivity|].
  all: unfold includes, fmt.Errorf; cbn [Error];
    exists "project name ("; eexists; reflexivity.
Qed.

Lemma Validate_project_name_witness :
  ProjectName (config (self (snd (run Validate sampleEnv sampleInit)))) = "myapp".
Proof.
  destruct (Validate_project_name sampleEnv sampleInit
              (or_intror eq_refl) eq_refl (fun _ => eq_refl))
    as (_ & Hname & _).
  exact (Hname eq_refl eq_refl).
Defined.

(** C5.  A repository that is given is kept as it is and no detection is
    called; once the project name has passed, [Validate] then succeeds
    whatever the repository reads.  The detection is called only for an
    empty repository, and then it is called once the project name has
    passed: its failure makes [Validate] return the wrapped error and
    leaves the field empty, its success puts its result in the field. *)
Theorem Validate_repository (env : Env) (p : initSubcommand) :
  let r := fst (run Validate env p) in
  let st := snd (run Validate env p) in
  let tr := trace st in
  (Repo (config p) <> "" ->
   Repo (config (self st)) = Repo (config p)
   /\ forall repo r', ~ In (FindCurrentRepoCall repo r') tr)
  /\ (forall repo r', In (FindCurrentRepoCall repo r') tr ->
        Repo (config p) = "" /\ currentRepo env = (repo, r'))
  /\ (forall repo e, In (FindCurrentRepoCall repo (Some e)) tr ->
        r = Some (fmt.Errorf ("error finding current repository: " ++ Error e))
        /\ Repo (config (self st)) = "")
  /\ (forall repo, In (FindCurrentRepoCall repo None) tr ->
        r = None /\ Repo (config (self st)) = repo)
  /\ ((exists value, In (IsDNS1123LabelCall value None) tr) ->
      (Repo (config p) <> "" -> r = None)
      /\ (Repo (config p) = "" ->
          In (FindCurrentRepoCall (fst (currentRepo env)) (snd (currentRepo env)))
             tr)).
Proof.
  intros r st tr. subst r st tr.
  destruct (run Validate env p) as [r st] eqn:E.
  cases_in E.
  all: injection E as <- <-;
    cbn [fst snd trace self config Repo setProjectName setRepo] in *.
  all: eqb_hyps.
  all: split; [intros Hrepo;
               first [congruence
                     | split; [reflexivity | intros repo r' H; no_such_event H]]|].
  all: split; [intros repo r' H;
               first [no_such_event H
                     | cbn in H;
                       repeat (destruct H as [H|H]; [discriminate H|]);
                       destruct H as [H|[]]; injection H as <- <-;
                       split; congruence]|].
  all: split; [intros repo e0 H;
               first [no_such_event H
                     | cbn in H;
                       repeat (destruct H as [H|H]; [discriminate H|]);
                       destruct H as [H|[]]; injection H as <- <-;
                       split; [reflexivity | assumption]]|].
  all: split; [intros repo H;
               first [no_such_event H
                     | cbn in H;
                       repeat (destruct H as [H|H]; [discriminate H|]);
                       destruct H as [H|[]]; injection H as <-;
                       split; reflexivity]|].
  all: intros [value H]; try no_such_event H.
  all: split; [intros Hrepo; first [congruence | reflexivity]
              | intros Hrepo; first [congruence | cbn; auto 10]].
Qed.

Lemma Validate_repository_witness :
  fst (run Validate sampleEnv sampleInit) = None
  /\ Repo (config (self (snd (run Validate sampleEnv sampleInit))))
     = "example.com/myapp".
Proof.
  destruct (Validate_repository sampleEnv sampleInit) as (_ & _ & _ & Hok & _).
  apply (Hok "example.com/myapp").
  do 4 right. left. reflexivity.
Defined.

(** C8.  When the version and the directory checks pass, the project name
    is empty, the working directory is known and its lower-cased base name
    passes the label predicate, the repository is empty and its detection
    fails: [Validate] returns the wrapped error of the detection, and the
    project name of the configuration is the derived name all the same. *)
Theorem Validate_not_atomic (env : Env) (p : initSubcommand)
  (dir repo : string) (e : error) :
  (skipGoVersionCheck p = true \/ goVersion env = None) ->
  checkDirOn (workingTree env) = None ->
  ProjectName (config p) = "" ->
  workingDir env = (dir, None) ->
  labelCheck env (strings.ToLower (unicodeLower env) (filepath.Base dir)) = None ->
  Repo (config p) = "" ->
  currentRepo env = (repo, Some e) ->
  fst (run Validate env p)
  = Some (fmt.Errorf ("error finding current repository: " ++ Error e))
  /\ ProjectName (config (self (snd (run Validate env p))))
     = strings.ToLower (unicodeLower env) (filepath.Base dir)
  /\ Repo (config (self (snd (run Validate env p)))) = "".
Proof.
  intros Hversion Hdir Hname Hwd Hlabel Hrepo Hdetect.
  destruct (run Validate env p) as [r st] eqn:E.
  cases_in E.
  all: injection E as <- <-;
    cbn [fst snd trace self config ProjectName Repo setProjectName setRepo] in *.
  all: eqb_hyps.
  all: try (destruct Hversion; congruence).
  all: try congruence.
  all: repeat match goal with
         | H : (_, _) = (_, _) |- _ => injection H as ? ?; subst
         end; try congruence.
  all: repeat split; try reflexivity; congruence.
Qed.

Lemma Validate_not_atomic_witness :
  fst (run Validate noModule sampleInit)
  = Some (errorString
            "error finding current repository: could not determine repository path")
  /\ ProjectName (config (self (snd (run Validate noModule sampleInit)))) = "myapp"
  /\ Repo (config (self (snd (run Validate noModule sampleInit)))) = "".
Proof.
  apply (Validate_not_atomic noModule sampleInit "/home/dev/MyApp" ""
           (errorString "could not determine repository path"));
    try reflexivity.
  right. reflexivity.
Defined.

(** C7.  After a call of [Validate] that returned ok, a second call in the
    same surroundings returns ok as well and leaves the receiver, so the
    project name and the repository, as the first call left it. *)
Theorem Validate_idempotent (env : Env) (st0 st1 : State) :
  Validate env st0 = (None, st1) ->
  fst (Validate env st1) = None
  /\ self (snd (Validate env st1)) = self st1.
Proof.
  intros E1.
  cases_in E1.
  all: try discriminate E1.
  all: injection E1 as <-.
  all: destruct (Validate env _) as [r2 st2] eqn:E2.
  all: cases_in E2.
  all: injection E2 as <- <-;
    cbn [fst snd trace self config ProjectName Repo setProjectName setRepo] in *.
  all: eqb_hyps.
  all: repeat match goal with
         | H : (_, _) = (_, _) |- _ => injection H; clear H; intros; subst
         end.
  all: try congruence.
  all: split; [reflexivity|].
  all: unfold setRepo, setProjectName;
    cbn [config Domain ProjectName Repo ComponentConfig Layout commandName
         license owner fetchDeps skipGoVersionCheck];
    reflexivity.
Qed.

Lemma Validate_idempotent_witness :
  fst (Validate sampleEnv (snd (run Validate sampleEnv sampleInit))) = None
  /\ self (snd (Validate sampleEnv (snd (run Validate sampleEnv sampleInit))))
     = self (snd (run Validate sampleEnv sampleInit)).
Proof.
  apply (Validate_idempotent sampleEnv (mkState sampleInit [])).
  reflexivity.
Defined.

(** ** Further properties of checkDir *)

Lemma visits_Dir path name entries :
  filepath.visits path name (Dir entries)
  = (path, Some (mkFileInfo name true), None) :: entriesVisits path entries.
Proof.
  simpl. f_equal. unfold entriesVisits.
  induction entries as [|[nm child] rest IH]; simpl; [reflexivity|].
  rewrite IH. reflexivity.
Qed.

Lemma checkDirFunc_name path name isDir :
  checkDirFunc path (Some (mkFileInfo name isDir)) None
  = if allowedName name then None else Some errNotAllowed.
Proof.
  unfold checkDirFunc, allowedName. simpl. destruct (_ && _); reflexivity.
Qed.

Lemma firstError_unreadable n :
  forall path name,
    readable n = false ->
    firstError checkDirFunc (filepath.visits path name n) <> None.
Proof.
  induction n as [e| |e|entries IH] using inode_tree_ind;
    intros path name Hr; try discriminate.
  rewrite visits_Dir. cbn [firstError]. rewrite checkDirFunc_name.
  destruct (allowedName name); [|discriminate].
  simpl in Hr. unfold entriesVisits.
  induction IH as [|[nm child] rest Hc _ IHrest]; simpl in *; [discriminate|].
  rewrite firstError_app.
  destruct (firstError checkDirFunc
              (filepath.visits (filepath.Join path nm) nm child)) eqn:E;
    [discriminate|].
  destruct (readable child) eqn:Hchild.
  - apply IHrest. exact Hr.
  - exfalso. exact (Hc _ _ eq_refl E).
Qed.

Lemma firstError_passes path before :
  forallb passes before = true ->
  firstError checkDirFunc (entriesVisits path before) = None.
Proof.
  unfold entriesVisits.
  induction before as [|[nm child] rest IH]; simpl; intros H; [reflexivity|].
  apply andb_prop in H as [Hx Hrest].
  unfold passes in Hx. simpl in Hx.
  apply andb_prop in Hx as [Hx Hnames]. apply andb_prop in Hx as [Hname Hread].
  rewrite firstError_app, (firstError_readable _ _ _ Hread), Hname, Hnames.
  simpl. apply IH, Hrest.
Qed.

Lemma wellFormedCall_weaken (P Q : PathError -> Prop) call :
  (forall e, P e -> Q e) -> wellFormedCall P call -> wellFormedCall Q call.
Proof.
  intros HPQ. destruct call as [[p [i|]] [[]|]]; simpl; auto.
Qed.

Lemma visits_wellFormed n :
  forall path name,
    Forall (wellFormedCall (fun e => In e (fsErrors n)))
      (filepath.visits path name n).
Proof.
  induction n as [e| |e|entries IH] using inode_tree_ind; intros path name;
    try (repeat constructor; simpl; auto; fail).
  rewrite visits_Dir. constructor; [exact I|].
  unfold entriesVisits. simpl fsErrors.
  induction IH as [|[nm child] rest Hc _ IHrest]; simpl in *; [constructor|].
  apply Forall_app; split.
  - eapply Forall_impl; [|apply Hc].
    intros call. apply wellFormedCall_weaken.
    intros e He. apply in_or_app. left. exact He.
  - eapply Forall_impl; [|apply IHrest].
    intros call. apply wellFormedCall_weaken.
    intros e He. apply in_or_app. right. exact He.
Qed.

(** X1.  [checkDir] returns ok exactly when the walk meets no error of the
    file system anywhere below the working directory and every entry, at
    every depth, is named [go.mod] or starts with a dot. *)
Theorem checkDir_ok_iff (cwd : inode) :
  checkDirOn cwd = None
  <-> readable cwd = true
      /\ Forall (fun name => allowedName name = true) (entryNames cwd).
Proof.
  rewrite checkDirOn_firstError. split.
  - intros H. destruct (readable cwd) eqn:Hr.
    + split; [reflexivity|].
      rewrite (firstError_readable _ _ _ Hr) in H.
      change (allowedName ".") with true in H. simpl andb in H.
      destruct (forallb allowedName (entryNames cwd)) eqn:E; [|discriminate].
      apply Forall_forall. apply forallb_forall. exact E.
    + exfalso. exact (firstError_unreadable _ _ _ Hr H).
  - intros [Hr Hall]. rewrite (firstError_readable _ _ _ Hr).
    change (allowedName ".") with true. simpl andb.
    rewrite Forall_forall in Hall.
    rewrite (proj2 (forallb_forall allowedName (entryNames cwd)) Hall).
    reflexivity.
Qed.

(** X2.  Whatever the working directory holds, [checkDir] returns ok, or the
    error about the names, or one of the errors the file system holds in
    the tree; the callback never reaches a nil file info, and [SkipDir]
    never comes out. *)
Theorem checkDir_outcomes (cwd : inode) :
  checkDirOn cwd = None
  \/ checkDirOn cwd = Some errNotAllowed
  \/ exists e, In e (fsErrors cwd) /\ checkDirOn cwd = Some (pathError e).
Proof.
  rewrite checkDirOn_firstError.
  generalize (visits_wellFormed cwd "." ".").
  generalize (filepath.visits "." "." cwd) as calls.
  induction calls as [|[[p i] err] rest IH]; intros Hwf; [left; reflexivity|].
  inversion Hwf as [|? ? Hcall Hrest]; subst. cbn [firstError].
  destruct err as [err|].
  - destruct err; destruct i; simpl in Hcall; try contradiction;
      right; right; eexists; (split; [exact Hcall | reflexivity]).
  - destruct i as [[name isDir]|]; [|contradiction].
    rewrite checkDirFunc_name. destruct (allowedName name).
    + apply IH, Hrest.
    + right; left; reflexivity.
Qed.

(** X3.  Among the entries of the working directory, the first one that
    does not pass decides: when it can be examined (a file, or a directory
    that can be listed) and its name is neither [go.mod] nor dot-prefixed,
    [checkDir] returns the error about the names, whatever it contains and
    whatever follows it. *)
Theorem checkDir_first_offender
  (before after : list (string * inode)) (name : string) (child : inode) :
  forallb passes before = true ->
  allowedName name = false ->
  (child = File \/ exists entries, child = Dir entries) ->
  checkDirOn (Dir (before ++ (name, child) :: after)) = Some errNotAllowed.
Proof.
  intros Hbefore Hname Hchild.
  rewrite checkDirOn_firstError, visits_Dir. cbn [firstError].
  rewrite checkDirFunc_name. change (allowedName ".") with true. cbv iota.
  unfold entriesVisits. rewrite flat_map_app, firstError_app.
  fold (entriesVisits "." before). rewrite (firstError_passes _ _ Hbefore).
  cbn [flat_map fst snd]. rewrite firstError_app.
  destruct Hchild as [->|[entries ->]].
  - cbn [filepath.visits firstError]. rewrite checkDirFunc_name, Hname.
    reflexivity.
  - rewrite visits_Dir. cbn [firstError]. rewrite checkDirFunc_name, Hname.
    reflexivity.
Qed.

Lemma checkDir_first_offender_witness :
  checkDirOn (Dir [(".gitignore", File); ("cmd", Dir [(".keep", File)]);
                   ("zz", Locked (permissionDenied "zz"))])
  = Some errNotAllowed.
Proof.
  apply (checkDir_first_offender [(".gitignore", File)]
           [("zz", Locked (permissionDenied "zz"))] "cmd" (Dir [(".keep", File)]));
    [reflexivity | reflexivity | right; eexists; reflexivity].
Defined.

(** X4.  For an entry that cannot be examined ([Lstat] fails on it, or it
    is a directory that cannot be listed), the error of the file system
    comes before the name policy: when the entries before it pass,
    [checkDir] returns that error whatever the entry is named. *)
Theorem checkDir_unreadable_before_name
  (before after : list (string * inode)) (name : string) (child : inode)
  (e : PathError) :
  forallb passes before = true ->
  (child = Missing e \/ child = Locked e) ->
  checkDirOn (Dir (before ++ (name, child) :: after)) = Some (pathError e).
Proof.
  intros Hbefore Hchild.
  rewrite checkDirOn_firstError, visits_Dir. cbn [firstError].
  rewrite checkDirFunc_name. change (allowedName ".") with true. cbv iota.
  unfold entriesVisits. rewrite flat_map_app, firstError_app.
  fold (entriesVisits "." before). rewrite (firstError_passes _ _ Hbefore).
  cbn [flat_map fst snd]. rewrite firstError_app.
  destruct Hchild as [->| ->]; reflexivity.
Qed.

Lemma checkDir_unreadable_before_name_witness :
  checkDirOn (Dir [("go.mod", File); ("src", Locked (permissionDenied "src"))])
  = Some (pathError (permissionDenied "src")).
Proof.
  apply (checkDir_unreadable_before_name [("go.mod", File)] [] "src"
           (Locked (permissionDenied "src")) (permissionDenied "src"));
    [reflexivity | right; reflexivity].
Defined.

(** ** Further properties of Validate *)

Ltac pair_hyps :=
  repeat match goal with
    | H : (_, _) = (_, _) |- _ => injection H; clear H; intros; subst
    end.

(** Running [Validate] in the goal along the branches the hypotheses
    fix. *)
Ltac replay_Validate :=
  unfold run, Validate, checkDir, util.ValidateGoVersion, os.Getwd,
    validation.IsDNS1123Label, util.FindCurrentRepo, fmt.Errorf,
    bind, reads, asks, ret, modify, emit, withGoVersion;
  cbn -[String.append strings.ToLower filepath.Base Error checkDirOn String.eqb];
  repeat (match goal with
          | H : ?x = _ |- context [?x] => rewrite H
          end;
          cbn -[String.append strings.ToLower filepath.Base Error checkDirOn
                String.eqb]).

(** X5.  When [Validate] returns ok: the version check passed or was
    skipped, the directory check passed, the project name the configuration
    now holds passes the label predicate, and a project name or repository
    that was empty now holds what the working directory, respectively the
    detection, gave without error. *)
Theorem Validate_ok_postcondition (env : Env) (p : initSubcommand) :
  fst (run Validate env p) = None ->
  let p' := self (snd (run Validate env p)) in
  (skipGoVersionCheck p = true \/ goVersion env = None)
  /\ checkDirOn (workingTree env) = None
  /\ labelCheck env (ProjectName (config p')) = None
  /\ (ProjectName (config p) = "" ->
      snd (workingDir env) = None
      /\ ProjectName (config p')
         = strings.ToLower (unicodeLower env) (filepath.Base (fst (workingDir env))))
  /\ (Repo (config p) = "" ->
      snd (currentRepo env) = None
      /\ Repo (config p') = fst (currentRepo env)).
Proof.
  intros Hok p'. subst p'.
  destruct (run Validate env p) as [r st] eqn:E.
  cases_in E.
  all: injection E as <- <-;
    cbn [fst snd trace self config ProjectName Repo setProjectName setRepo] in *.
  all: try discriminate Hok.
  all: eqb_hyps.
  all: repeat split; intros; auto; try congruence.
Qed.

Lemma Validate_ok_postcondition_witness :
  labelCheck sampleEnv
    (ProjectName (config (self (snd (run Validate sampleEnv sampleInit))))) = None.
Proof.
  destruct (Validate_ok_postcondition sampleEnv sampleInit eq_refl)
    as (_ & _ & Hlabel & _).
  exact Hlabel.
Defined.

(** X6.  An error of [Validate] is the error of the version check or of the
    directory check as it is, or one of three wrapped messages: the working
    directory could not be read, the project name is invalid, the
    repository could not be found. *)
Theorem Validate_error_sources (env : Env) (p : initSubcommand) (e : error) :
  fst (run Validate env p) = Some e ->
  let name := ProjectName (config (self (snd (run Validate env p)))) in
  (skipGoVersionCheck p = false /\ goVersion env = Some e)
  \/ checkDirOn (workingTree env) = Some e
  \/ (exists cause, snd (workingDir env) = Some cause
        /\ e = fmt.Errorf ("error getting current directory: " ++ Error cause))
  \/ (exists cause, labelCheck env name = Some cause
        /\ e = fmt.Errorf ("project name (" ++ name ++ ") is invalid: "
                           ++ Error cause))
  \/ (exists cause, snd (currentRepo env) = Some cause
        /\ e = fmt.Errorf ("error finding current repository: " ++ Error cause)).
Proof.
  intros Herr name. subst name.
  destruct (run Validate env p) as [r st] eqn:E.
  cases_in E.
  all: injection E as <- <-;
    cbn [fst snd trace self config ProjectName Repo setProjectName setRepo] in *.
  all: try discriminate Herr.
  all: injection Herr as <-.
  all: first
    [ left; split; [reflexivity | first [assumption | reflexivity]]
    | right; left; first [assumption | reflexivity]
    | right; right; left; eexists; split; [reflexivity | reflexivity]
    | right; right; right; left; eexists; split; [eassumption | reflexivity]
    | right; right; right; right; eexists; split; reflexivity ].
Qed.

Lemma Validate_error_sources_witness :
  exists cause,
    snd (currentRepo noModule) = Some cause
    /\ errorString
         "error finding current repository: could not determine repository path"
       = fmt.Errorf ("error finding current repository: " ++ Error cause).
Proof.
  destruct (Validate_error_sources noModule sampleInit
              (errorString
                 "error finding current repository: could not determine repository path")
              eq_refl)
    as [[_ H]|[H|[[c [H _]]|[[c [H _]]|H]]]]; try discriminate H.
  exact H.
Defined.

(** X7.  With the option to skip the version check set, the answer of the
    version check has no influence on [Validate]: neither on its result,
    nor on the receiver, nor on the calls it makes. *)
Theorem Validate_skip_ignores_version
  (env : Env) (p : initSubcommand) (r : option error) :
  skipGoVersionCheck p = true ->
  run Validate (withGoVersion r env) p = run Validate env p.
Proof.
  intros Hskip.
  destruct (run Validate env p) as [r0 st] eqn:E.
  cases_in E.
  all: try discriminate Hskip.
  all: injection E as <- <-.
  all: replay_Validate.
  all: reflexivity.
Qed.

Lemma Validate_skip_ignores_version_witness :
  fst (run Validate
         (withGoVersion (Some (errorString "go version is too old")) sampleEnv)
         (setSkipGoVersionCheck true sampleInit)) = None.
Proof.
  rewrite (Validate_skip_ignores_version sampleEnv
             (setSkipGoVersionCheck true sampleInit)
             (Some (errorString "go version is too old")) eq_refl).
  reflexivity.
Defined.

(** X8.  When the project name is empty and the working directory cannot be
    read, [Validate] returns the wrapped error of [os.Getwd], leaves the
    receiver as it was, and calls neither the label predicate nor the
    detection of the repository. *)
Theorem Validate_getwd_failure
  (env : Env) (p : initSubcommand) (dir : string) (e : error) :
  (skipGoVersionCheck p = true \/ goVersion env = None) ->
  checkDirOn (workingTree env) = None ->
  ProjectName (config p) = "" ->
  workingDir env = (dir, Some e) ->
  let r := fst (run Validate env p) in
  let st := snd (run Validate env p) in
  r = Some (fmt.Errorf ("error getting current directory: " ++ Error e))
  /\ self st = p
  /\ (forall value r', ~ In (IsDNS1123LabelCall value r') (trace st))
  /\ (forall repo r', ~ In (FindCurrentRepoCall repo r') (trace st)).
Proof.
  intros Hversion Hdir Hname Hwd r st. subst r st.
  destruct (run Validate env p) as [r st] eqn:E.
  cases_in E.
  all: injection E as <- <-;
    cbn [fst snd trace self config ProjectName Repo setProjectName setRepo] in *.
  all: eqb_hyps.
  all: try (destruct Hversion; congruence).
  all: try congruence.
  all: pair_hyps; try congruence.
  all: repeat split; try reflexivity; intros; intro H; no_such_event H.
Qed.

(** Surroundings in which the working directory has been removed. *)
Lemma Validate_getwd_failure_witness :
  fst (run Validate
         (mkEnv None (workingTree sampleEnv)
            ("", Some (errorString "getwd: no such file or directory"))
            sampleLabelCheck (currentRepo sampleEnv) (fun _ _ => None)
            "v0.6.3" (fun s => s))
         sampleInit)
  = Some (errorString
            "error getting current directory: getwd: no such file or directory").
Proof.
  apply (Validate_getwd_failure
           (mkEnv None (workingTree sampleEnv)
              ("", Some (errorString "getwd: no such file or directory"))
              sampleLabelCheck (currentRepo sampleEnv) (fun _ _ => None)
              "v0.6.3" (fun s => s))
           sampleInit ""
           (errorString "getwd: no such file or directory"));
    try reflexivity.
  right. reflexivity.
Defined.

(** X9.  A project name that is given is used as it stands: [os.Getwd] is
    not called, and the label predicate is only ever called on the given
    name, which is not lower-cased. *)
Theorem Validate_given_name_verbatim (env : Env) (p : initSubcommand) :
  ProjectName (config p) <> "" ->
  let tr := trace (snd (run Validate env p)) in
  (forall dir r, ~ In (GetwdCall dir r) tr)
  /\ (forall value r, In (IsDNS1123LabelCall value r) tr ->
        value = ProjectName (config p)).
Proof.
  intros Hname tr. subst tr.
  destruct (run Validate env p) as [r st] eqn:E.
  cases_in E.
  all: injection E as <- <-; cbn [fst snd trace self config ProjectName] in *.
  all: eqb_hyps; try congruence.
  all: split; [intros dir r0 H; no_such_event H|].
  all: intros value r0 H; first [no_such_event H | cbn in H].
  all: repeat (destruct H as [H|H]; [try discriminate H|]);
    try contradiction; injection H as <- _; reflexivity.
Qed.

Lemma Validate_given_name_verbatim_witness :
  ProjectName (config (setProjectName "MyApp" sampleInit)) <> ""
  /\ (forall value r,
        In (IsDNS1123LabelCall value r)
           (trace (snd (run Validate sampleEnv
                          (setProjectName "MyApp" sampleInit)))) ->
        value = "MyApp").
Proof.
  split; [discriminate|].
  apply (Validate_given_name_verbatim sampleEnv (setProjectName "MyApp" sampleInit)).
  discriminate.
Defined.

(** X10.  When the name derived from the working directory is rejected by
    the label predicate, [Validate] fails, yet the configuration now holds
    the rejected name; the repository is not touched and no detection is
    called; and a second call fails with the same error. *)
Theorem Validate_rejected_derived_name
  (env : Env) (p : initSubcommand) (dir : string) (e : error) :
  (skipGoVersionCheck p = true \/ goVersion env = None) ->
  checkDirOn (workingTree env) = None ->
  ProjectName (config p) = "" ->
  workingDir env = (dir, None) ->
  labelCheck env (strings.ToLower (unicodeLower env) (filepath.Base dir)) = Some e ->
  let name := strings.ToLower (unicodeLower env) (filepath.Base dir) in
  let r := fst (run Validate env p) in
  let st := snd (run Validate env p) in
  r = Some (fmt.Errorf ("project name (" ++ name ++ ") is invalid: " ++ Error e))
  /\ ProjectName (config (self st)) = name
  /\ Repo (config (self st)) = Repo (config p)
  /\ (forall repo r', ~ In (FindCurrentRepoCall repo r') (trace st))
  /\ fst (Validate env st) = r.
Proof.
  intros Hversion Hdir Hname Hwd Hlabel name r st. subst name r st.
  destruct (run Validate env p) as [r st] eqn:E.
  cases_in E.
  all: injection E as <- <-;
    cbn [fst snd trace self config ProjectName Repo setProjectName setRepo] in *.
  all: eqb_hyps.
  all: try (destruct Hversion; congruence).
  all: try congruence.
  all: pair_hyps; try congruence.
  all: repeat match goal with
         | H : labelCheck _ _ = Some _, H' : labelCheck _ _ = Some _ |- _ =>
             rewrite H in H'; injection H' as <-
         end.
  all: split; [reflexivity|].
  all: split; [reflexivity|].
  all: split; [reflexivity|].
  all: split; [intros repo r' H; no_such_event H|].
  all: match goal with
       | |- fst (Validate ?env ?st) = _ =>
           destruct (Validate env st) as [r2 st2] eqn:E2
       end.
  all: cases_in E2.
  all: injection E2 as <- <-;
    cbn [fst snd trace self config ProjectName Repo setProjectName setRepo] in *.
  all: eqb_hyps; pair_hyps; try congruence.
Qed.

(** A project directory whose name is not a label. *)
Lemma Validate_rejected_derived_name_witness :
  ProjectName
    (config (self (snd (run Validate
                          (mkEnv None (workingTree sampleEnv)
                             ("/home/dev/My_App", None) sampleLabelCheck
                             (currentRepo sampleEnv) (fun _ _ => None)
                             "v0.6.3" (fun s => s))
                          sampleInit))))
  = "my_app".
Proof.
  destruct (Validate_rejected_derived_name
              (mkEnv None (workingTree sampleEnv)
                 ("/home/dev/My_App", None) sampleLabelCheck
                 (currentRepo sampleEnv) (fun _ _ => None)
                 "v0.6.3" (fun s => s))
              sampleInit "/home/dev/My_App"
              (errorString
                 "a DNS-1123 label must consist of lower case alphanumeric characters or '-'")
              (or_intror eq_refl) eq_refl eq_refl eq_refl eq_refl)
    as (_ & Hname & _).
  exact Hname.
Defined.

(** X11.  When the version check or the directory check fails, [Validate]
    returns that error as it is and has not touched the receiver; it asked
    neither for the working directory, nor the label predicate, nor the
    repository. *)
Theorem Validate_precondition_failure
  (env : Env) (p : initSubcommand) (e : error) :
  (skipGoVersionCheck p = false /\ goVersion env = Some e)
  \/ ((skipGoVersionCheck p = true \/ goVersion env = None)
      /\ checkDirOn (workingTree env) = Some e) ->
  let r := fst (run Validate env p) in
  let st := snd (run Validate env p) in
  r = Some e
  /\ self st = p
  /\ forall ev, In ev (trace st) -> stage ev <= 1.
Proof.
  intros Hfail r st. subst r st.
  destruct (run Validate env p) as [r st] eqn:E.
  cases_in E.
  all: injection E as <- <-;
    cbn [fst snd trace self config ProjectName Repo setProjectName setRepo] in *.
  all: try (destruct Hfail as [[H1 H2]|[[H1|H1] H2]]; congruence).
  all: split; [destruct Hfail as [[H1 H2]|[[H1|H1] H2]]; congruence|].
  all: split; [reflexivity|].
  all: intros ev H; cbn in H;
    repeat (destruct H as [H|H]; [subst ev; cbn; lia|]); contradiction.
Qed.

Lemma Validate_precondition_failure_witness :
  fst (run Validate
         (mkEnv None lockedCache (workingDir sampleEnv) sampleLabelCheck
            (currentRepo sampleEnv) (fun _ _ => None) "v0.6.3" (fun s => s))
         sampleInit)
  = Some (pathError (permissionDenied ".cache")).
Proof.
  apply (Validate_precondition_failure
           (mkEnv None lockedCache (workingDir sampleEnv) sampleLabelCheck
              (currentRepo sampleEnv) (fun _ _ => None) "v0.6.3" (fun s => s))
           sampleInit (pathError (permissionDenied ".cache"))).
  right. split; [right|]; reflexivity.
Defined.

(** X12.  The body of [Validate] calls neither [util.RunCmd] nor a
    printing function of [fmt]: its log holds at most five events, each of
    them a call of one of its checks ([util.ValidateGoVersion], the walk,
    [os.Getwd], [validation.IsDNS1123Label], [util.FindCurrentRepo]).  What
    those functions do inside is not part of this file. *)
Theorem Validate_only_checks (env : Env) (p : initSubcommand) :
  let tr := trace (snd (run Validate env p)) in
  forallb isValidateCheck tr = true
  /\ commandsOf tr = []
  /\ length tr <= 5.
Proof.
  intros tr. subst tr.
  destruct (run Validate env p) as [r st] eqn:E.
  cases_in E.
  all: injection E as <- <-; cbn; repeat split; lia.
Qed.

(** ** The derived project name *)

Lemma lowerByte_not_upper c :
  strings.isUpperByte (strings.lowerByte c) = false.
Proof.
  unfold strings.lowerByte.
  destruct (strings.isUpperByte c) eqn:Hc; [|exact Hc].
  unfold strings.isUpperByte in *.
  apply andb_prop in Hc as [H1 H2].
  apply Nat.leb_le in H1. apply Nat.leb_le in H2.
  rewrite nat_ascii_embedding by lia.
  apply andb_false_iff. right. apply Nat.leb_gt. lia.
Qed.

Lemma map_lowerByte_spec s :
  forall_bytes (fun c => negb (strings.isUpperByte c))
    (map_bytes strings.lowerByte s) = true
  /\ String.length (map_bytes strings.lowerByte s) = String.length s.
Proof.
  induction s as [|c s [IH1 IH2]]; simpl; [split; reflexivity|].
  rewrite lowerByte_not_upper, IH1, IH2. split; reflexivity.
Qed.

Lemma ToLower_ascii (lower : string -> string) (s : string) :
  forall_bytes strings.isASCIIByte s = true ->
  forall_bytes (fun c => negb (strings.isUpperByte c)) (strings.ToLower lower s)
  = true
  /\ String.length (strings.ToLower lower s) = String.length s.
Proof.
  intros H. unfold strings.ToLower. rewrite H.
  destruct (forall_bytes (fun c => negb (strings.isUpperByte c)) s) eqn:E.
  - split; [exact E | reflexivity].
  - apply map_lowerByte_spec.
Qed.

Lemma Base_not_empty path : filepath.Base path <> "".
Proof.
  unfold filepath.Base.
  destruct (path =? "")%string; [discriminate|].
  destruct (String.eqb_spec (filepath.lastElement (filepath.stripTrailing path)) "");
    [discriminate | assumption].
Qed.

Lemma hasSep_app a b :
  filepath.hasSep (a ++ b) = filepath.hasSep a || filepath.hasSep b.
Proof.
  induction a as [|c a IH]; simpl; [reflexivity|].
  rewrite IH. apply orb_assoc.
Qed.

Lemma stripTrailing_app a b :
  b <> "" -> filepath.hasSep b = false ->
  filepath.stripTrailing (a ++ b) = a ++ b.
Proof.
  intros Hb Hsep. induction a as [|c a IH]; simpl.
  - clear Hb. induction b as [|c b IHb]; simpl in *; [reflexivity|].
    apply orb_false_iff in Hsep as [Hc Hrest].
    rewrite (IHb Hrest). rewrite Hc. destruct b; reflexivity.
  - rewrite IH. destruct (a ++ b) eqn:E; [|reflexivity].
    destruct a; simpl in E; [congruence | discriminate].
Qed.

Lemma lastElement_join parent leaf :
  filepath.hasSep leaf = false ->
  filepath.lastElement (parent ++ "/" ++ leaf) = leaf.
Proof.
  intros Hsep. induction parent as [|c parent IH]; simpl.
  - rewrite Hsep. reflexivity.
  - change (String "/" leaf) with ("/" ++ leaf).
    rewrite hasSep_app. simpl. rewrite orb_true_r. exact IH.
Qed.

Lemma append_associative (a b c : string) : (a ++ b) ++ c = a ++ b ++ c.
Proof.
  induction a as [|x a IH]; simpl; [reflexivity | rewrite IH; reflexivity].
Qed.

(** The base name of [parent/leaf] is [leaf]. *)
Lemma Base_join parent leaf :
  leaf <> "" -> filepath.hasSep leaf = false ->
  filepath.Base (parent ++ "/" ++ leaf) = leaf.
Proof.
  intros Hleaf Hsep. unfold filepath.Base.
  destruct (String.eqb_spec (parent ++ "/" ++ leaf) "") as [E|_].
  - destruct parent; discriminate E.
  - rewrite <- (append_associative parent "/" leaf).
    rewrite (stripTrailing_app _ _ Hleaf Hsep).
    rewrite (append_associative parent "/" leaf).
    rewrite (lastElement_join _ _ Hsep).
    destruct (String.eqb_spec leaf ""); [contradiction | reflexivity].
Qed.

(** The name [Validate] derives from a working directory it can read. *)
Lemma Validate_derives (env : Env) (p : initSubcommand) (dir : string) :
  (skipGoVersionCheck p = true \/ goVersion env = None) ->
  checkDirOn (workingTree env) = None ->
  ProjectName (config p) = "" ->
  workingDir env = (dir, None) ->
  ProjectName (config (self (snd (run Validate env p))))
  = strings.ToLower (unicodeLower env) (filepath.Base dir).
Proof.
  intros Hversion Hdir Hname Hwd.
  destruct (run Validate env p) as [r st] eqn:E.
  cases_in E.
  all: injection E as <- <-;
    cbn [fst snd trace self config ProjectName Repo setProjectName setRepo] in *.
  all: eqb_hyps.
  all: try (destruct Hversion; congruence).
  all: try congruence.
  all: pair_hyps; try congruence.
Qed.

(** X13.  When the base name of the working directory is made of ASCII
    bytes, the project name derived from it has no upper-case letter, has
    the length of the base name, and is not empty. *)
Theorem Validate_derived_name_lowercase
  (env : Env) (p : initSubcommand) (dir : string) :
  (skipGoVersionCheck p = true \/ goVersion env = None) ->
  checkDirOn (workingTree env) = None ->
  ProjectName (config p) = "" ->
  workingDir env = (dir, None) ->
  forall_bytes strings.isASCIIByte (filepath.Base dir) = true ->
  let name := ProjectName (config (self (snd (run Validate env p)))) in
  forall_bytes (fun c => negb (strings.isUpperByte c)) name = true
  /\ String.length name = String.length (filepath.Base dir)
  /\ name <> "".
Proof.
  intros Hversion Hdir Hname Hwd Hascii name. subst name.
  rewrite (Validate_derives env p dir Hversion Hdir Hname Hwd).
  destruct (ToLower_ascii (unicodeLower env) _ Hascii) as [Hlow Hlen].
  split; [exact Hlow|]. split; [exact Hlen|].
  intros E. rewrite E in Hlen. simpl in Hlen.
  apply (Base_not_empty dir). destruct (filepath.Base dir); [reflexivity | discriminate].
Qed.

Lemma Validate_derived_name_lowercase_witness :
  String.length
    (ProjectName (config (self (snd (run Validate sampleEnv sampleInit))))) = 5.
Proof.
  destruct (Validate_derived_name_lowercase sampleEnv sampleInit "/home/dev/MyApp"
              (or_intror eq_refl) eq_refl eq_refl eq_refl eq_refl)
    as (_ & Hlen & _).
  exact Hlen.
Defined.

(** X14.  In a working directory [parent/leaf], where [leaf] is not empty
    and holds no separator, the derived project name is the lower-case form
    of [leaf], whatever [parent] is. *)
Theorem Validate_derived_name_of_path
  (env : Env) (p : initSubcommand) (parent leaf : string) :
  (skipGoVersionCheck p = true \/ goVersion env = None) ->
  checkDirOn (workingTree env) = None ->
  ProjectName (config p) = "" ->
  workingDir env = (parent ++ "/" ++ leaf, None) ->
  leaf <> "" ->
  filepath.hasSep leaf = false ->
  ProjectName (config (self (snd (run Validate env p))))
  = strings.ToLower (unicodeLower env) leaf.
Proof.
  intros Hversion Hdir Hname Hwd Hleaf Hsep.
  rewrite (Validate_derives env p _ Hversion Hdir Hname Hwd).
  rewrite (Base_join parent leaf Hleaf Hsep). reflexivity.
Qed.

Lemma Validate_derived_name_of_path_witness :
  ProjectName (config (self (snd (run Validate sampleEnv sampleInit))))
  = strings.ToLower (fun s => s) "MyApp".
Proof.
  apply (Validate_derived_name_of_path sampleEnv sampleInit "/home/dev" "MyApp");
    try reflexivity.
  - right. reflexivity.
  - discriminate.
Defined.

(** ** Further properties of PostScaffold *)

(** X15.  [PostScaffold] never writes to the receiver, and it only adds to
    the log. *)
Theorem PostScaffold_frame (env : Env) (st0 : State) :
  self (snd (PostScaffold env st0)) = self st0
  /\ exists more, trace (snd (PostScaffold env st0)) = (trace st0 ++ more)%list.
Proof.
  unfold PostScaffold, bind, reads, asks, ret, util.RunCmd, fmt.Printf,
    fmt.Println, emit.
  cbn [self trace].
  destruct (fetchDeps (self st0)); cbn [negb self trace snd].
  - destruct (execute env _ _); cbn [self trace snd];
      [split; [reflexivity | eexists; reflexivity]|].
    destruct (execute env _ _); cbn [self trace snd];
      [split; [reflexivity | rewrite <- app_assoc; eexists; reflexivity]|].
    destruct (execute env _ _); cbn [self trace snd];
      (split; [reflexivity | rewrite <- !app_assoc; eexists; reflexivity]).
  - split; [reflexivity | eexists; reflexivity].
Qed.

(** X16.  [PostScaffold] returns ok exactly when fetching is disabled or
    each of the three commands succeeds after the ones before it. *)
Theorem PostScaffold_ok_iff (env : Env) (p : initSubcommand) :
  fst (run PostScaffold env p) = None
  <-> fetchDeps p = false
      \/ (execute env [] (goGet (controllerRuntimeVersion env)) = None
          /\ execute env [goGet (controllerRuntimeVersion env)] goModTidy = None
          /\ execute env [goGet (controllerRuntimeVersion env); goModTidy] runMake
             = None).
Proof.
  destruct (fetchDeps p) eqn:Hf.
  - rewrite (PostScaffold_cases env p Hf).
    destruct (execute env [] _) as [e1|];
      [|destruct (execute env [_] _) as [e2|];
        [|destruct (execute env [_; _] _) as [e3|]]];
      cbn [fst]; split; intros H; try discriminate H; auto;
      destruct H as [H|(H1 & H2 & H3)]; discriminate.
  - split; [intros _; left; reflexivity | intros _].
    unfold run, PostScaffold, bind, reads, ret, fmt.Println, emit.
    cbn [self trace]. rewrite Hf. reflexivity.
Qed.

(** ** UpdateContext, InjectConfig and BindFlags *)

Lemma includes_nextHint name : includes name (nextHint name).
Proof.
  exists ("Next: define a resource with:" ++ newline ++ "$ "),
         (" create api" ++ newline).
  unfold nextHint. rewrite !append_associative. reflexivity.
Qed.

(** X17.  After [UpdateContext], a run of [PostScaffold] that fetches the
    dependencies and succeeds prints a hint that holds the command name of
    the context. *)
Theorem UpdateContext_names_the_command
  (env : Env) (ctx : Context) (p : initSubcommand) :
  fetchDeps p = true ->
  let p' := snd (UpdateContext ctx p) in
  fst (run PostScaffold env p') = None ->
  exists text,
    In (Print text) (trace (snd (run PostScaffold env p')))
    /\ includes (CommandName ctx) text.
Proof.
  intros Hf p' Hok. subst p'.
  exists (nextHint (CommandName ctx)). split; [|apply includes_nextHint].
  revert Hok.
  rewrite (PostScaffold_cases env (snd (UpdateContext ctx p)) Hf).
  destruct (execute env [] _) as [e1|];
    [|destruct (execute env [_] _) as [e2|];
      [|destruct (execute env [_; _] _) as [e3|]]];
    cbn [fst snd trace]; intros H; try discriminate H.
  cbn. auto 10.
Qed.

Lemma UpdateContext_names_the_command_witness :
  exists text,
    In (Print text)
       (trace (snd (run PostScaffold sampleEnv
                      (snd (UpdateContext (mkContext "operator-sdk" "" "")
                              sampleInit)))))
    /\ includes "operator-sdk" text.
Proof.
  apply (UpdateContext_names_the_command sampleEnv
           (mkContext "operator-sdk" "" "") sampleInit);
    reflexivity.
Defined.

(** X18.  [UpdateContext] writes the description and the examples whatever
    they held: the description is the text of the source, the examples are
    its format filled with the command name of the context, which they so
    contain, and nothing of the previous description or examples has an
    influence on the result.  The command name of the context is kept; of
    the receiver the command name is changed, and nothing else; applied a
    second time, [UpdateContext] changes nothing. *)
Theorem UpdateContext_idempotent (ctx : Context) (p : initSubcommand) :
  let ctx' := fst (UpdateContext ctx p) in
  let p' := snd (UpdateContext ctx p) in
  UpdateContext ctx' p' = (ctx', p')
  /\ includes (CommandName ctx) (Examples ctx')
  /\ CommandName ctx' = CommandName ctx
  /\ commandName p' = CommandName ctx
  /\ setCommandName (commandName p) p' = setCommandName (commandName p) p
  /\ Description ctx' = initDescription
  /\ Examples ctx' = initExamples (CommandName ctx)
  /\ (forall description examples,
        UpdateContext (mkContext (CommandName ctx) description examples) p
        = UpdateContext ctx p)
  /\ includes "Writes the following files:" (Description ctx')
  /\ includes (CommandName ctx ++ " init --project-version=2") (Examples ctx').
Proof.
  intros ctx' p'. subst ctx' p'. unfold UpdateContext.
  cbn [fst snd CommandName Description Examples commandName setCommandName
       config license owner fetchDeps skipGoVersionCheck].
  split; [reflexivity|].
  split.
  { unfold initExamples.
    exists ("  # Scaffold a project using the apache2 license with " ++ dquote
            ++ "The Kubernetes authors" ++ dquote ++ " as owners" ++ newline
            ++ "  ").
    eexists. rewrite !append_associative. reflexivity. }
  do 6 (split; [reflexivity|]).
  split.
  { unfold initDescription.
    exists ("Initialize a new project including vendor/ directory and Go package directories."
            ++ newline ++ newline).
    eexists. rewrite !append_associative. reflexivity. }
  unfold initExamples.
  exists ("  # Scaffold a project using the apache2 license with " ++ dquote
          ++ "The Kubernetes authors" ++ dquote ++ " as owners" ++ newline
          ++ "  ").
  eexists. rewrite !append_associative. reflexivity.
Qed.

Lemma defined_snoc (fs : FlagSet) (flag : Flag) name :
  pflag.defined (fs ++ [flag])%list name
  = pflag.defined fs name || String.eqb (flagName flag) name.
Proof.
  unfold pflag.defined. rewrite existsb_app. simpl. rewrite orb_false_r.
  reflexivity.
Qed.

Ltac unfold_BindFlags :=
  unfold BindFlags, andThen, pflag.BoolVar, pflag.StringVar, pflag.AddFlag;
  cbn [fst snd flagName].

(** One definition of [BindFlags]: refused when the name is in the set
    given at the start, else added. *)
Ltac flag_check :=
  rewrite ?defined_snoc; cbn [flagName]; simpl (String.eqb _ _);
  rewrite ?orb_false_r;
  match goal with
  | |- context [if pflag.defined ?fs ?n then _ else _] =>
      destruct (pflag.defined fs n) eqn:?
  end;
  cbn [orb fst snd].

Lemma BindFlags_run (fs : FlagSet) (p : initSubcommand) :
  if existsb (pflag.defined fs) initFlagNames
  then BindFlags fs p = None
  else exists fs',
      BindFlags fs p = Some (fs', withFlagDefaults p)
      /\ map nameAndDefault fs'
         = (map nameAndDefault fs ++ initFlagDefaults)%list.
Proof.
  unfold_BindFlags. cbn [existsb initFlagNames].
  do 8 (flag_check; [reflexivity|]).
  eexists. split; [reflexivity|].
  rewrite !map_app. rewrite <- !app_assoc. reflexivity.
Qed.

(** X19.  On a flag set that holds none of the eight names, [BindFlags]
    defines them in the order of the source with their defaults, and leaves
    every bound variable at the default of its flag, whatever it held
    before; the layout and the command name are not bound and are kept. *)
Theorem BindFlags_defaults (fs : FlagSet) (p : initSubcommand) :
  existsb (pflag.defined fs) initFlagNames = false ->
  exists fs',
    BindFlags fs p = Some (fs', withFlagDefaults p)
    /\ map nameAndDefault fs' = (map nameAndDefault fs ++ initFlagDefaults)%list.
Proof.
  intros H. generalize (BindFlags_run fs p). rewrite H. exact (fun x => x).
Qed.

Lemma BindFlags_defaults_witness :
  exists fs',
    BindFlags [] (setProjectName "Given" (setFetchDeps false sampleInit))
    = Some (fs', sampleInit)
    /\ map nameAndDefault fs' = initFlagDefaults.
Proof.
  apply (BindFlags_defaults []
           (setProjectName "Given" (setFetchDeps false sampleInit))).
  reflexivity.
Defined.

(** X20.  [BindFlags] panics exactly when the flag set already holds one of
    the eight names. *)
Theorem BindFlags_panics_iff (fs : FlagSet) (p : initSubcommand) :
  BindFlags fs p = None <-> existsb (pflag.defined fs) initFlagNames = true.
Proof.
  generalize (BindFlags_run fs p).
  destruct (existsb (pflag.defined fs) initFlagNames).
  - intros H. split; [reflexivity | intros _; exact H].
  - intros [fs' [H _]]. rewrite H. split; discriminate.
Qed.

Lemma defined_by_name (fs : FlagSet) name :
  pflag.defined fs name = existsb (fun n => String.eqb n name) (map flagName fs).
Proof.
  unfold pflag.defined. induction fs as [|f fs IH]; simpl; [reflexivity|].
  rewrite IH. reflexivity.
Qed.

(** X21.  [BindFlags] cannot be applied twice to one flag set: on the set
    that a first call returns, a second call panics, whatever the
    receiver. *)
Theorem BindFlags_twice_panics
  (fs fs' : FlagSet) (p p' q : initSubcommand) :
  BindFlags fs p = Some (fs', p') ->
  BindFlags fs' q = None.
Proof.
  intros H.
  assert (Hpanic : existsb (pflag.defined fs') initFlagNames = true
                   -> BindFlags fs' q = None).
  { intros Hd. generalize (BindFlags_run fs' q). rewrite Hd. exact (fun x => x). }
  apply Hpanic. clear Hpanic.
  generalize (BindFlags_run fs p).
  destruct (existsb (pflag.defined fs) initFlagNames); [congruence|].
  intros [fs0 [H0 Hnames]]. rewrite H in H0. injection H0 as <- _.
  assert (Hn : map flagName fs' = (map flagName fs ++ initFlagNames)%list).
  { change flagName with (fun f => fst (nameAndDefault f)).
    rewrite <- !(map_map nameAndDefault fst), Hnames, map_app. reflexivity. }
  cbn [existsb initFlagNames]. rewrite (defined_by_name fs' "skip-go-version-check").
  rewrite Hn, existsb_app. cbn. rewrite orb_true_r. reflexivity.
Qed.

Lemma BindFlags_twice_panics_witness :
  exists fs' p',
    BindFlags [] sampleInit = Some (fs', p')
    /\ BindFlags fs' sampleInit = None.
Proof.
  eexists. eexists. split; [reflexivity|].
  eapply (BindFlags_twice_panics [] _ sampleInit _ sampleInit).
  reflexivity.
Defined.

(** X22.  After [InjectConfig] and [BindFlags] on a fresh flag set, with no
    flag given on the command line: whatever [Validate] does, the layout is
    the key of the plugin and the domain is [my.domain]; and when [Validate]
    returns ok, it has run the version check, and the project name and the
    repository are the ones taken from the working directory and from the
    detection. *)
Theorem InjectConfig_BindFlags_Validate
  (key : string) (c : Config) (p : initSubcommand) (fs : FlagSet) (env : Env) :
  existsb (pflag.defined fs) initFlagNames = false ->
  exists fs' p1,
    BindFlags fs (InjectConfig key c p) = Some (fs', p1)
    /\ let r := fst (run Validate env p1) in
       let st := snd (run Validate env p1) in
       Layout (config (self st)) = key
       /\ Domain (config (self st)) = "my.domain"
       /\ (r = None ->
           In (ValidateGoVersionCall None) (trace st)
           /\ ProjectName (config (self st))
              = strings.ToLower (unicodeLower env)
                  (filepath.Base (fst (workingDir env)))
           /\ Repo (config (self st)) = fst (currentRepo env)).
Proof.
  intros Hfresh.
  generalize (BindFlags_run fs (InjectConfig key c p)). rewrite Hfresh.
  intros [fs' [H _]].
  exists fs', (withFlagDefaults (InjectConfig key c p)).
  split; [exact H|].
  intros r st. subst r st.
  destruct (run Validate env _) as [r st] eqn:E.
  unfold withFlagDefaults, InjectConfig, setConfig in E.
  cbn [config Layout commandName] in E.
  cases_in E.
  all: injection E as <- <-;
    cbn [fst snd trace self config Layout Domain ProjectName Repo
         setProjectName setRepo].
  all: try (simpl in *; congruence).
  all: split; [reflexivity|]; split; [reflexivity|].
  all: intros Hr; try discriminate Hr.
  all: pair_hyps; cbn [fst].
  all: split; [cbn; auto|]; split; reflexivity.
Qed.

Lemma InjectConfig_BindFlags_Validate_witness :
  exists fs' p1,
    BindFlags [] (InjectConfig "go.kubebuilder.io/v3"
                    (mkConfig "" "" "" false "") sampleInit) = Some (fs', p1)
    /\ Layout (config (self (snd (run Validate sampleEnv p1))))
       = "go.kubebuilder.io/v3".
Proof.
  destruct (InjectConfig_BindFlags_Validate "go.kubebuilder.io/v3"
              (mkConfig "" "" "" false "") sampleInit [] sampleEnv eq_refl)
    as [fs' [p1 [H [Hlayout _]]]].
  exists fs', p1. split; [exact H | exact Hlayout].
Defined.
